(** * Favicon generator: [packages/react-ui/scripts/generate-favicons.py]

    A shallow embedding of the favicon generation script and the
    verification of its specification.

    The script is a sequence of effects: imports, prints, file system
    probes and writes, and calls into two libraries (the cairosvg
    rasterizer and Pillow).  It is modelled in a small monad that threads
    the file system, stops at the first [sys.exit] or uncaught exception,
    and records every effect the script performs, in order, in a log. *)

From Stdlib Require Import ZArith Ascii String Strings.Byte.
From stdpp Require Import gmap strings list fin_maps pretty.

(** ** Paths ([pathlib.Path]) *)

(** An absolute path is the list of its components below the root. *)
Abbreviation path := (list string).

Module Path.

(** Components of a path written as a string: splits at every slash. *)
Fixpoint split_slash (cur s : string) : list string :=
  match s with
  | EmptyString => [cur]
  | String c s' =>
      if Ascii.eqb c "/"%char then cur :: split_slash "" s'
      else split_slash (cur +:+ String c "") s'
  end.

(** pathlib drops empty components and single dots. *)
Definition parts (s : string) : list string :=
  filter (λ x, x ≠ "" ∧ x ≠ ".") (split_slash "" s).

(** [self.parent]; the parent of the root is the root. *)
Definition parent (p : path) : path := removelast p.

(** [self / s]; an absolute right operand replaces the left one. *)
Definition joinpath (p : path) (s : string) : path :=
  if String.prefix "/" s then parts s else p ++ parts s.

(** [self.name]: the final component. *)
Definition name (p : path) : string := List.last p "".

(** [str(self)] *)
Definition str (p : path) : string := "/" +:+ String.concat "/" p.

End Path.

Notation "p // s" := (Path.joinpath p s) (at level 40, left associativity).

(** ** The file system *)

Inductive node : Type :=
| Dir
| File (data : list byte).

Abbreviation FS := (gmap (list string) node).

Inductive exn : Type :=
| ImportError
| FileNotFoundError
| FileExistsError
| NotADirectoryError
| IsADirectoryError
| RenderError             (* the rasterizer rejects the SVG *)
| UnidentifiedImageError  (* Pillow cannot identify the file *)
| EncodeError.            (* Pillow's encoder fails *)

#[global] Instance byte_eq_dec : EqDecision byte := Byte.byte_eq_dec.
#[global] Instance node_eq_dec : EqDecision node.
Proof. solve_decision. Defined.
#[global] Instance exn_eq_dec : EqDecision exn.
Proof. solve_decision. Defined.

Module OS.

Definition is_dir (p : path) (fs : FS) : bool :=
  match fs !! p with Some Dir => true | _ => false end.

Definition exists_ (p : path) (fs : FS) : bool :=
  match fs !! p with Some _ => true | None => false end.

(** [os.mkdir(p)]: one level, the parent has to be a directory. *)
Definition mkdir (p : path) (fs : FS) : exn + FS :=
  match fs !! p with
  | Some _ => inl FileExistsError
  | None =>
      match fs !! Path.parent p with
      | Some Dir => inr (<[p := Dir]> fs)
      | Some (File _) => inl NotADirectoryError
      | None => inl FileNotFoundError
      end
  end.

(** [open(p, 'rb').read()] *)
Definition read (p : path) (fs : FS) : exn + list byte :=
  match fs !! p with
  | Some (File d) => inr d
  | Some Dir => inl IsADirectoryError
  | None => inl FileNotFoundError
  end.

(** [open(p, 'wb')]: creates the file or truncates it. *)
Definition open_wb (p : path) (fs : FS) : exn + FS :=
  match fs !! p with
  | Some Dir => inl IsADirectoryError
  | _ =>
      match fs !! Path.parent p with
      | Some Dir => inr (<[p := File []]> fs)
      | Some (File _) => inl NotADirectoryError
      | None => inl FileNotFoundError
      end
  end.

End OS.

(** [Path.mkdir(parents, exist_ok)] of pathlib:
<<
    try: os.mkdir(self)
    except FileNotFoundError:
        if not parents or self.parent == self: raise
        self.parent.mkdir(parents=True, exist_ok=True)
        self.mkdir(mode, parents=False, exist_ok=exist_ok)
    except OSError:
        if not exist_ok or not self.is_dir(): raise
>>
    The recursion goes to the parent, so the function is structural on the
    reversed path. *)
Definition mkdir_handle (p : path) (exist_ok : bool) (e : exn) (fs : FS)
  : exn + FS :=
  if exist_ok && OS.is_dir p fs then inr fs else inl e.

Definition mkdir_noparents (p : path) (exist_ok : bool) (fs : FS) : exn + FS :=
  match OS.mkdir p fs with
  | inr fs' => inr fs'
  | inl FileNotFoundError => inl FileNotFoundError
  | inl e => mkdir_handle p exist_ok e fs
  end.

Fixpoint mkdir_rev (rp : list string) (parents exist_ok : bool) (fs : FS)
  : exn + FS :=
  let p := rev rp in
  match OS.mkdir p fs with
  | inr fs' => inr fs'
  | inl FileNotFoundError =>
      match rp with
      | [] => inl FileNotFoundError
      | _ :: rparent =>
          if parents then
            match mkdir_rev rparent true true fs with
            | inr fs1 => mkdir_noparents p exist_ok fs1
            | inl e => inl e
            end
          else inl FileNotFoundError
      end
  | inl e => mkdir_handle p exist_ok e fs
  end.

Definition pathlib_mkdir (p : path) (parents exist_ok : bool) (fs : FS)
  : exn + FS :=
  mkdir_rev (rev p) parents exist_ok fs.

(** ** Effects *)

(** A Pillow image as [Image.open] returns it: opening is lazy, the object
    keeps the file it was opened from and its bytes. *)
Record Image : Type := mkImage { filename : path; data : list byte }.

(** What the script does to the outside, one event per call. *)
Inductive event : Type :=
| EvImport (module : string)
| EvPrint (line : string)
| EvMkdir (p : path)
| EvExists (p : path)
| EvSvg2Png (url write_to : path) (output_width output_height : Z)
| EvOpen (p : path)
| EvSave (im : Image) (fp : path) (format : string) (sizes : list (Z * Z))
         (append_images : list Image).

(** The process sees a file system and the set of importable top-level
    modules; only the former changes. *)
Record World : Type := mkWorld { fs : FS; modules : list string }.

Definition set_fs (w : World) (fs' : FS) : World :=
  {| fs := fs'; modules := modules w |}.

(** How a computation ends: normally, by [sys.exit(code)], or by an
    exception nobody catches. *)
Inductive outcome (A : Type) : Type :=
| Ret (a : A)
| Exit (code : Z)
| Raise (e : exn).
Arguments Ret {A} a.
Arguments Exit {A} code.
Arguments Raise {A} e.

Record result (A : Type) : Type :=
  Result { res : outcome A; world : World; log : list event }.
Arguments Result {A} res world log.
Arguments res {A} r.
Arguments world {A} r.
Arguments log {A} r.

Definition M (A : Type) : Type := World → result A.

Definition ret {A} (a : A) : M A := λ w, Result (Ret a) w [].

Definition bind {A B} (m : M A) (k : A → M B) : M B := λ w,
  let r := m w in
  match res r with
  | Ret a => let r' := k a (world r) in
             Result (res r') (world r') (log r ++ log r')
  | Exit c => Result (Exit c) (world r) (log r)
  | Raise e => Result (Raise e) (world r) (log r)
  end.

Declare Scope py_scope.
Delimit Scope py_scope with py.
Notation "x <- m ;; k" := (bind m (λ x, k))
  (at level 100, m at next level, k at level 200, only parsing) : py_scope.
Notation "m ;; k" := (bind m (λ _, k))
  (at level 100, k at level 200, only parsing) : py_scope.
Open Scope py_scope.

Definition emit (e : event) : M unit := λ w, Result (Ret tt) w [e].
Definition raise {A} (e : exn) : M A := λ w, Result (Raise e) w [].
Definition sys_exit {A} (code : Z) : M A := λ w, Result (Exit code) w [].
Definition print (line : string) : M unit := emit (EvPrint line).

(** Runs a file system operation: its result replaces the file system,
    its error is raised. *)
Definition fs_update (op : FS → exn + FS) : M unit := λ w,
  match op (fs w) with
  | inr fs' => Result (Ret tt) (set_fs w fs') []
  | inl e => Result (Raise e) w []
  end.

Definition fs_read {A} (op : FS → exn + A) : M A := λ w,
  match op (fs w) with
  | inr a => Result (Ret a) w []
  | inl e => Result (Raise e) w []
  end.

(** [import m] *)
Definition import_ (m : string) : M unit :=
  emit (EvImport m) ;;
  λ w, if bool_decide (m ∈ modules w) then ret tt w else raise ImportError w.

(** [try: body except ImportError: handler] *)
Definition try_except_ImportError (body handler : M unit) : M unit := λ w,
  let r := body w in
  match res r with
  | Raise ImportError =>
      let r' := handler (world r) in
      Result (res r') (world r') (log r ++ log r')
  | _ => r
  end.

(** [for x in l: body(x)] *)
Fixpoint for_each {A} (l : list A) (body : A → M unit) : M unit :=
  match l with
  | [] => ret tt
  | x :: l' => body x ;; for_each l' body
  end.

(** [p.exists()] *)
Definition Path_exists (p : path) : M bool :=
  emit (EvExists p) ;; λ w, ret (OS.exists_ p (fs w)) w.

(** [p.mkdir(parents=..., exist_ok=...)] *)
Definition Path_mkdir (p : path) (parents exist_ok : bool) : M unit :=
  emit (EvMkdir p) ;; fs_update (pathlib_mkdir p parents exist_ok).

Definition exit_code {A} (o : outcome A) : Z :=
  match o with
  | Ret _ => 0
  | Exit c => c
  | Raise _ => 1
  end.

Definition nl : string := String (ascii_of_nat 10) "".

Section Script.

(** The two libraries, by what they compute.  The rasterizer turns the
    bytes of an SVG and a width and height into the bytes of a PNG, or
    fails; Pillow recognises a file as an image or not, and encodes a
    base image with size hints and further frames into an ICO, or
    fails. *)
Variable svg2png_render : list byte → Z → Z → option (list byte).
Variable pil_identify : list byte → bool.
Variable ico_encode : Image → list (Z * Z) → list Image → option (list byte).

(** [__file__]: the absolute path of the script being run. *)
Variable script_file : path.

(** [cairosvg.svg2png(url=, write_to=, output_width=, output_height=)]:
    reads and renders the SVG, then writes the PNG. *)
Definition cairosvg_svg2png (url write_to : path)
    (output_width output_height : Z) : M unit :=
  emit (EvSvg2Png url write_to output_width output_height) ;;
  svg <- fs_read (OS.read url) ;;
  match svg2png_render svg output_width output_height with
  | None => raise RenderError
  | Some png =>
      fs_update (OS.open_wb write_to) ;;
      fs_update (λ fs, inr (<[write_to := File png]> fs))
  end.

(** [Image.open(p)] *)
Definition Image_open (p : path) : M Image :=
  emit (EvOpen p) ;;
  d <- fs_read (OS.read p) ;;
  if pil_identify d then ret (mkImage p d) else raise UnidentifiedImageError.

(** [im.save(fp, format=, sizes=, append_images=)]: Pillow opens the
    target, runs the encoder, and removes the target again when the
    encoder fails on a file this call created. *)
Definition Image_save (im : Image) (fp : path) (format : string)
    (sizes : list (Z * Z)) (append_images : list Image) : M unit :=
  emit (EvSave im fp format sizes append_images) ;;
  created <- (λ w, ret (negb (OS.exists_ fp (fs w))) w) ;;
  old <- (λ w, ret (fs w) w) ;;
  fs_update (OS.open_wb fp) ;;
  match ico_encode im sizes append_images with
  | Some ico => fs_update (λ fs, inr (<[fp := File ico]> fs))
  | None =>
      (if created : bool then fs_update (λ _, inr old) else ret tt) ;;
      raise EncodeError
  end.

(** *** The script, line by line *)

Definition SCRIPT_DIR : path := Path.parent script_file.
Definition PROJECT_ROOT : path := Path.parent SCRIPT_DIR.
Definition SVG_PATH : path :=
  PROJECT_ROOT // "packages/react-ui/public/favicons/favicon.svg".
Definition FAVICON_DIR : path :=
  PROJECT_ROOT // "packages/react-ui/public/favicons".

Definition PNG_SIZES : list (string * Z) :=
  [ ("favicon-16x16.png", 16);
    ("favicon-32x32.png", 32);
    ("favicon-48x48.png", 48);
    ("favicon-64x64.png", 64);
    ("favicon-96x96.png", 96);
    ("favicon-128x128.png", 128);
    ("apple-touch-icon.png", 180);
    ("android-chrome-192x192.png", 192);
    ("android-chrome-512x512.png", 512) ]%Z.

Definition svg_to_png (svg_path png_path : path) (size : Z) : M unit :=
  print ("Generating " +:+ Path.name png_path +:+ " (" +:+ pretty size
         +:+ "x" +:+ pretty size +:+ ")...") ;;
  cairosvg_svg2png svg_path png_path size size.

(** The candidate a given size is loaded from. *)
Definition ico_png_path (size : Z) : path :=
  let png_name := "favicon-" +:+ pretty size +:+ "x" +:+ pretty size
                  +:+ ".png" in
  FAVICON_DIR // png_name.

(** The loop of [create_ico]: [images] grows by [append]. *)
Fixpoint load_images (sizes : list Z) (images : list Image)
  : M (list Image) :=
  match sizes with
  | [] => ret images
  | size :: sizes' =>
      let png_path := ico_png_path size in
      b <- Path_exists png_path ;;
      if b : bool then
        img <- Image_open png_path ;;
        load_images sizes' (images ++ [img])
      else load_images sizes' images
  end.

Definition create_ico (png_sizes_paths : list (string * Z)) : M unit :=
  print "Generating favicon.ico..." ;;
  let ico_path := FAVICON_DIR // "favicon.ico" in
  images <- load_images [16; 32; 48]%Z [] ;;
  match images with
  | im0 :: rest =>
      Image_save im0 ico_path "ICO" [(16, 16); (32, 32); (48, 48)]%Z rest ;;
      print ("Created " +:+ Path.name ico_path)
  | [] =>
      print "Warning: Could not create ICO file - missing required PNG sizes"
  end.

Definition main : M unit :=
  b <- Path_exists SVG_PATH ;;
  (if negb b then
     print ("Error: SVG source not found at " +:+ Path.str SVG_PATH) ;;
     sys_exit 1
   else ret tt) ;;
  print ("Using SVG source: " +:+ Path.str SVG_PATH) ;;
  print ("Output directory: " +:+ Path.str FAVICON_DIR) ;;
  print "" ;;
  for_each PNG_SIZES (λ '(filename, size),
    let png_path := FAVICON_DIR // filename in
    svg_to_png SVG_PATH png_path size) ;;
  create_ico PNG_SIZES ;;
  print (nl +:+ "âœ… Favicon generation complete!") ;;
  print ("Files created in: " +:+ Path.str FAVICON_DIR).

(** The module body, top to bottom: the import guard, the path
    constants, the [mkdir] of line 26, the definitions, and the call of
    [main] under [if __name__ == "__main__"]. *)
Definition script : M unit :=
  try_except_ImportError
    (import_ "cairosvg" ;; import_ "PIL")
    (print "Required packages not found. Please install:" ;;
     print "  pip install cairosvg pillow" ;;
     sys_exit 1) ;;
  Path_mkdir FAVICON_DIR true true ;;
  main.

(** *** What a run is expected to leave behind *)

(** The two events of one [svg_to_png] call of the loop in [main]. *)
Definition png_events (entry : string * Z) : list event :=
  [ EvPrint ("Generating " +:+ Path.name (FAVICON_DIR // entry.1) +:+ " ("
             +:+ pretty entry.2 +:+ "x" +:+ pretty entry.2 +:+ ")...");
    EvSvg2Png SVG_PATH (FAVICON_DIR // entry.1) entry.2 entry.2 ].

(** The file system after the PNGs of the entries [l] have been written,
    in order, from the SVG bytes [svg]. *)
Definition written (svg : list byte) (l : list (string * Z)) (fs : FS) : FS :=
  foldl (λ fs entry,
           match svg2png_render svg entry.2 entry.2 with
           | Some png => <[FAVICON_DIR // entry.1 := File png]> fs
           | None => fs
           end) fs l.

(** The image [create_ico] loads for a size, when its file is there. *)
Definition candidate (fs : FS) (size : Z) : option Image :=
  match fs !! ico_png_path size with
  | Some (File d) => Some (mkImage (ico_png_path size) d)
  | _ => None
  end.

(** The probes and loads of [create_ico] over [sizes]: every candidate
    is probed, the ones that exist are opened. *)
Definition probe_events (fs : FS) (sizes : list Z) : list event :=
  flat_map (λ size,
              EvExists (ico_png_path size) ::
              if OS.exists_ (ico_png_path size) fs
              then [EvOpen (ico_png_path size)] else []) sizes.

(** What the loop of [main] needs to get through the entries [l]: the
    source is a file, the output directory is there, the rasterizer
    accepts the source at every size, and no target is a directory. *)
Definition raster_ready (svg : list byte) (l : list (string * Z)) (fs : FS)
  : Prop :=
  fs !! SVG_PATH = Some (File svg) ∧
  fs !! FAVICON_DIR = Some Dir ∧
  Forall (λ entry : string * Z,
            is_Some (svg2png_render svg entry.2 entry.2) ∧
            fs !! (FAVICON_DIR // entry.1) ≠ Some Dir) l.

(** Every candidate of [sizes] that exists is a file Pillow identifies. *)
Definition loadable (fs : FS) (sizes : list Z) : Prop :=
  Forall (λ size, ∀ n, fs !! ico_png_path size = Some n →
                       ∃ d, n = File d ∧ pil_identify d = true) sizes.

(** The size hints [create_ico] passes to the encoder. *)
Definition ico_sizes : list (Z * Z) := [(16, 16); (32, 32); (48, 48)]%Z.

(** *** A run that gets to the end *)

(** The PNG of a size, and the image [create_ico] loads for it. *)
Definition rendered (svg : list byte) (size : Z) : list byte :=
  default [] (svg2png_render svg size size).

Definition ico_source (svg : list byte) (size : Z) : Image :=
  mkImage (ico_png_path size) (rendered svg size).

(** The events of a run that gets to the end, in order: the import
    guard, the [mkdir] of the module body, then [main]: the check of the
    source, the loop over the table, the ICO assembly, the report. *)
Definition success_log (svg : list byte) : list event :=
  [ EvImport "cairosvg"; EvImport "PIL" ] ++
  [ EvMkdir FAVICON_DIR ] ++
  [ EvExists SVG_PATH;
    EvPrint ("Using SVG source: " +:+ Path.str SVG_PATH);
    EvPrint ("Output directory: " +:+ Path.str FAVICON_DIR);
    EvPrint "" ] ++
  flat_map png_events PNG_SIZES ++
  [ EvPrint "Generating favicon.ico...";
    EvExists (ico_png_path 16); EvOpen (ico_png_path 16);
    EvExists (ico_png_path 32); EvOpen (ico_png_path 32);
    EvExists (ico_png_path 48); EvOpen (ico_png_path 48);
    EvSave (ico_source svg 16) (FAVICON_DIR // "favicon.ico") "ICO"
      ico_sizes [ico_source svg 32; ico_source svg 48];
    EvPrint "Created favicon.ico" ] ++
  [ EvPrint (nl +:+ "âœ… Favicon generation complete!");
    EvPrint ("Files created in: " +:+ Path.str FAVICON_DIR) ].

(** What it takes for a run to get to the end: both libraries, a
    [mkdir] that goes through, a source the rasterizer accepts at every
    size of the table, PNGs Pillow identifies, an encoder that accepts
    them, and no directory in the way of an output. *)
Definition success_conditions (w : World) (fs1 : FS) (svg ico : list byte)
  : Prop :=
  "cairosvg" ∈ modules w ∧
  "PIL" ∈ modules w ∧
  pathlib_mkdir FAVICON_DIR true true (fs w) = inr fs1 ∧
  raster_ready svg PNG_SIZES fs1 ∧
  Forall (λ size, pil_identify (rendered svg size) = true) [16; 32; 48]%Z ∧
  ico_encode (ico_source svg 16) ico_sizes
    [ico_source svg 32; ico_source svg 48] = Some ico ∧
  fs1 !! (FAVICON_DIR // "favicon.ico") ≠ Some Dir.

(** The file system such a run leaves behind. *)
Definition success_fs (fs1 : FS) (svg ico : list byte) : FS :=
  <[FAVICON_DIR // "favicon.ico" := File ico]> (written svg PNG_SIZES fs1).

End Script.

(** [prepend l r]: the run [r] after the events [l] have happened. *)
Definition prepend {A} (l : list event) (r : result A) : result A :=
  Result (res r) (world r) (l ++ log r).

(** A name that is a single component: no slash, not empty, not a dot. *)
Definition plain_name (f : string) : Prop :=
  String.prefix "/" f = false ∧ Path.parts f = [f].

(** What a successful [mkdir(parents=True)] of [p] has done: [p] is a
    directory, nothing that was there has changed, and whatever is new is
    a directory on the way to [p]. *)
Definition mkdir_post (p : path) (fs fs' : FS) : Prop :=
  fs' !! p = Some Dir ∧
  fs ⊆ fs' ∧
  ∀ q n, fs' !! q = Some n → fs !! q = None → n = Dir ∧ q `prefix_of` p.

(** ** Reading a log *)

(** The lines a run printed. *)
Definition stdout (l : list event) : list string :=
  omap (λ e, match e with EvPrint s => Some s | _ => None end) l.


Definition is_svg2png (e : event) : bool :=
  match e with EvSvg2Png _ _ _ _ => true | _ => false end.

Definition is_save (e : event) : bool :=
  match e with EvSave _ _ _ _ _ => true | _ => false end.

Definition is_exists (e : event) : bool :=
  match e with EvExists _ => true | _ => false end.

Definition is_open (e : event) : bool :=
  match e with EvOpen _ => true | _ => false end.

(** A name the script may write to: a single component other than the
    source's. *)
Definition output_name (f : string) : Prop :=
  plain_name f ∧ f ≠ "favicon.svg".

(** ** A concrete installation

    A checkout under [/repo], toy libraries, and a few states of the
    disk, to run the script on. *)
Module Example.

(** Renders up to [limit] pixels: the PNG is the SVG with one byte in
    front that tells small sizes from large ones. *)
Definition render (limit : Z) (svg : list byte) (width height : Z)
  : option (list byte) :=
  if (limit <? width)%Z then None
  else Some ((if (width <=? 64)%Z then x01 else x02) :: svg).

Definition identify (d : list byte) : bool :=
  match d with [] => false | _ => true end.

Definition encode (im : Image) (sizes : list (Z * Z)) (rest : list Image)
  : option (list byte) :=
  Some (data im ++ concat (data <$> rest)).

Definition script_file : path :=
  ["repo"; "packages"; "react-ui"; "scripts"; "generate-favicons.py"].

(** The directory the script resolves for its output. *)
Definition favicons : path :=
  ["repo"; "packages"; "react-ui"; "packages"; "react-ui"; "public";
   "favicons"].

Definition libs : list string := ["cairosvg"; "PIL"].

(** A disk with the checkout and nothing the script looks for. *)
Definition bare_fs : FS :=
  <[ ["repo"; "packages"; "react-ui"] := Dir ]>
    (<[ ["repo"; "packages"] := Dir ]>
       (<[ ["repo"] := Dir ]> (<[ [] := Dir ]> ∅))).

(** The same with the output directory in place. *)
Definition tree_fs : FS :=
  <[ favicons := Dir ]>
    (<[ ["repo"; "packages"; "react-ui"; "packages"; "react-ui"; "public"]
          := Dir ]>
       (<[ ["repo"; "packages"; "react-ui"; "packages"; "react-ui"] := Dir ]>
          (<[ ["repo"; "packages"; "react-ui"; "packages"] := Dir ]>
             bare_fs))).

Definition svg_bytes : list byte := [x3c; x73; x76; x67].

(** The source where the script looks for it. *)
Definition svg_fs : FS :=
  <[ favicons ++ ["favicon.svg"] := File svg_bytes ]> tree_fs.

(** The source next to the leftovers of an older run. *)
Definition stale_fs : FS :=
  <[ favicons ++ ["favicon.ico"] := File [x00; x00] ]>
    (<[ favicons ++ ["favicon-16x16.png"] := File [x00] ]> svg_fs).

(** An output directory holding the 32 and 48 pixel PNGs only. *)
Definition partial_fs : FS :=
  <[ favicons ++ ["favicon-48x48.png"] := File [x30] ]>
    (<[ favicons ++ ["favicon-32x32.png"] := File [x20] ]> tree_fs).

Definition bare : World := mkWorld bare_fs libs.
Definition with_svg : World := mkWorld svg_fs libs.
Definition stale : World := mkWorld stale_fs libs.
Definition partial : World := mkWorld partial_fs libs.
Definition partial_no_libs : World :=
  mkWorld (<[ ["tmp"] := Dir ]> partial_fs) [].

(** Disks with something in the wrong place: a file where the output
    directory goes, a directory where the source goes, an empty file for
    the 32 pixel PNG, a directory where [favicon.ico] goes. *)
Definition blocked : World :=
  mkWorld (<[ favicons := File [x00] ]> bare_fs) libs.
Definition broken : World :=
  mkWorld (<[ favicons ++ ["favicon-32x32.png"] := File [] ]> partial_fs) libs.
Definition ico_is_dir : World :=
  mkWorld (<[ favicons ++ ["favicon.ico"] := Dir ]> svg_fs) libs.

Definition run (limit : Z) : M unit :=
  script (render limit) identify encode script_file.

End Example.

(** The order the specification words: every [mkdir] in the log of a run
    comes after a check that some path exists. *)
Definition checks_before_mkdir (l : list event) : Prop :=
  ∀ pre p post, l = pre ++ EvMkdir p :: post → ∃ q, EvExists q ∈ pre.

(** The paths the script writes files to: the nine PNGs of the table and
    [favicon.ico], in the output directory of a script at [script_file]. *)
Definition is_output (script_file : path) (q : path) : Prop :=
  q = FAVICON_DIR script_file // "favicon.ico" ∨
  ∃ (f : string) (size : Z),
    (f, size) ∈ PNG_SIZES ∧ q = FAVICON_DIR script_file // f.

(** A computation that leaves the path [q] as it finds it, however it
    ends. *)
Definition preserves {A} (q : path) (m : M A) : Prop :=
  ∀ w, fs (world (m w)) !! q = fs w !! q.

(** * Properties *)

(** ** Running the primitives *)

Lemma result_eta {A} (r : result A) : Result (res r) (world r) (log r) = r.
Proof. by destruct r. Qed.

Lemma prepend_nil {A} (r : result A) : prepend [] r = r.
Proof. by destruct r. Qed.

Lemma prepend_prepend {A} l1 l2 (r : result A) :
  prepend l1 (prepend l2 r) = prepend (l1 ++ l2) r.
Proof. unfold prepend; simpl. by rewrite app_assoc. Qed.

Lemma bind_run {A B} (m : M A) (k : A → M B) w :
  bind m k w =
    match res (m w) with
    | Ret a => prepend (log (m w)) (k a (world (m w)))
    | Exit c => Result (Exit c) (world (m w)) (log (m w))
    | Raise e => Result (Raise e) (world (m w)) (log (m w))
    end.
Proof. reflexivity. Qed.

Lemma bind_emit {B} e (k : unit → M B) w :
  bind (emit e) k w = prepend [e] (k tt w).
Proof. reflexivity. Qed.

Lemma bind_print {B} s (k : unit → M B) w :
  bind (print s) k w = prepend [EvPrint s] (k tt w).
Proof. reflexivity. Qed.

Lemma bind_assoc {A B C} (m : M A) (k : A → M B) (h : B → M C) w :
  bind (bind m k) h w = bind m (λ a, bind (k a) h) w.
Proof.
  rewrite !bind_run. destruct (m w) as [[a|c|e] w1 l1]; simpl; try done.
  rewrite !bind_run.
  destruct (k a w1) as [[b|c|e] w2 l2]; simpl; try done.
  unfold prepend; simpl. by rewrite app_assoc.
Qed.

Lemma Path_exists_run p w :
  Path_exists p w = Result (Ret (OS.exists_ p (fs w))) w [EvExists p].
Proof. reflexivity. Qed.

Lemma set_fs_id w : set_fs w (fs w) = w.
Proof. by destruct w. Qed.

Lemma set_fs_set_fs w f1 f2 : set_fs (set_fs w f1) f2 = set_fs w f2.
Proof. reflexivity. Qed.

Lemma fs_set_fs (w : World) (f : FS) : fs (set_fs w f) = f.
Proof. reflexivity. Qed.

Lemma Path_mkdir_run p parents exist_ok w :
  Path_mkdir p parents exist_ok w =
    match pathlib_mkdir p parents exist_ok (fs w) with
    | inr fs' => Result (Ret tt) (set_fs w fs') [EvMkdir p]
    | inl e => Result (Raise e) w [EvMkdir p]
    end.
Proof.
  unfold Path_mkdir. rewrite bind_emit. unfold fs_update.
  by destruct (pathlib_mkdir _ _ _ _).
Qed.

Section Runs.

Variable svg2png_render : list byte → Z → Z → option (list byte).
Variable pil_identify : list byte → bool.
Variable ico_encode : Image → list (Z * Z) → list Image → option (list byte).

(** One rasterizer call: the event, then the first failure among
    reading, rendering and opening the target, or the PNG written. *)
Lemma cairosvg_svg2png_run url write_to width height w :
  cairosvg_svg2png svg2png_render url write_to width height w =
    prepend [EvSvg2Png url write_to width height]
      match OS.read url (fs w) with
      | inl e => Result (Raise e) w []
      | inr svg =>
          match svg2png_render svg width height with
          | None => Result (Raise RenderError) w []
          | Some png =>
              match OS.open_wb write_to (fs w) with
              | inl e => Result (Raise e) w []
              | inr _ =>
                  Result (Ret tt)
                    (set_fs w (<[write_to := File png]> (fs w))) []
              end
          end
      end.
Proof.
  unfold cairosvg_svg2png. rewrite bind_emit. f_equal.
  unfold bind, fs_read, fs_update, raise.
  destruct (OS.read url (fs w)) as [e|svg]; simpl; [done|].
  destruct (svg2png_render svg width height) as [png|]; simpl; [|done].
  destruct (OS.open_wb write_to (fs w)) as [e|fs1] eqn:Hopen; simpl; [done|].
  do 2 f_equal. unfold OS.open_wb in Hopen.
  repeat case_match; simplify_eq; by rewrite insert_insert_eq.
Qed.

Lemma Image_open_run p w :
  Image_open pil_identify p w =
    prepend [EvOpen p]
      match OS.read p (fs w) with
      | inl e => Result (Raise e) w []
      | inr d =>
          if pil_identify d then Result (Ret (mkImage p d)) w []
          else Result (Raise UnidentifiedImageError) w []
      end.
Proof.
  unfold Image_open. rewrite bind_emit. f_equal.
  unfold bind, fs_read, raise, ret.
  destruct (OS.read p (fs w)) as [e|d]; simpl; [done|].
  by destruct (pil_identify d).
Qed.

(** One [save]: the event, then the target opened and the encoder's
    bytes written; a failing encoder leaves a target it did not create
    truncated. *)
Lemma Image_save_run im fp format sizes append_images w :
  Image_save ico_encode im fp format sizes append_images w =
    prepend [EvSave im fp format sizes append_images]
      match OS.open_wb fp (fs w) with
      | inl e => Result (Raise e) w []
      | inr fs1 =>
          match ico_encode im sizes append_images with
          | Some ico =>
              Result (Ret tt) (set_fs w (<[fp := File ico]> (fs w))) []
          | None =>
              Result (Raise EncodeError)
                (if OS.exists_ fp (fs w) then set_fs w fs1 else w) []
          end
      end.
Proof.
  unfold Image_save. rewrite bind_emit. f_equal.
  unfold bind, fs_update, raise, ret; simpl.
  destruct (OS.open_wb fp (fs w)) as [e|fs1] eqn:Hopen; simpl; [done|].
  destruct (ico_encode im sizes append_images) as [ico|]; simpl.
  - do 2 f_equal. unfold OS.open_wb in Hopen.
    repeat case_match; simplify_eq; by rewrite insert_insert_eq.
  - destruct (OS.exists_ fp (fs w)); simpl; [done|].
    by rewrite set_fs_set_fs, set_fs_id.
Qed.

End Runs.

(** Closes a decidable goal by evaluating its decision procedure. *)
Ltac vm_decide := apply (bool_decide_unpack _); vm_compute; exact I.

(** Brings the log of a run that has been computed into normal form. *)
Ltac log_norm :=
  unfold prepend, print, emit; cbn [res world log app];
  rewrite ?app_nil_r, <- ?app_assoc; cbn [app].

(** ** Paths *)

Lemma parent_snoc (p : path) (x : string) : Path.parent (p ++ [x]) = p.
Proof. apply removelast_last. Qed.

Lemma joinpath_plain (p : path) (f : string) :
  plain_name f → p // f = p ++ [f].
Proof. intros [Hp Hf]. unfold Path.joinpath. by rewrite Hp, Hf. Qed.

Lemma snoc_ne_self (p : path) (x : string) : p ++ [x] ≠ p.
Proof.
  intros H. apply (f_equal length) in H. rewrite length_app in H.
  simpl in H. lia.
Qed.

Lemma snoc_inj_ne (p : path) (x y : string) : x ≠ y → p ++ [x] ≠ p ++ [y].
Proof. intros Hxy H. apply app_inv_head in H. congruence. Qed.

(** ** [Path.mkdir] *)

Lemma OS_mkdir_inr (p : path) (fs fs' : FS) :
  OS.mkdir p fs = inr fs' → fs !! p = None ∧ fs' = <[p := Dir]> fs.
Proof. unfold OS.mkdir. intros H. repeat case_match; by simplify_eq. Qed.

Lemma mkdir_handle_inr (p : path) (exist_ok : bool) (e : exn) (fs fs' : FS) :
  mkdir_handle p exist_ok e fs = inr fs' → fs !! p = Some Dir ∧ fs' = fs.
Proof.
  unfold mkdir_handle, OS.is_dir. intros H.
  destruct exist_ok; simpl in H; repeat case_match; by simplify_eq.
Qed.

Lemma mkdir_post_insert (p : path) (fs : FS) :
  fs !! p = None → mkdir_post p fs (<[p := Dir]> fs).
Proof.
  intros Hp. split; [by rewrite lookup_insert_eq|]. split.
  - by apply insert_subseteq.
  - intros q n Hq Hnone. destruct (decide (p = q)) as [->|Hne].
    + rewrite lookup_insert_eq in Hq. by simplify_eq.
    + rewrite lookup_insert_ne in Hq by done. congruence.
Qed.

Lemma mkdir_post_id (p : path) (fs : FS) : fs !! p = Some Dir → mkdir_post p fs fs.
Proof. intros Hp. split; [done|]. split; [done|]. intros; congruence. Qed.

Lemma mkdir_post_trans (p : path) (x : string) (fs fs1 fs' : FS) :
  mkdir_post p fs fs1 → mkdir_post (p ++ [x]) fs1 fs' →
  mkdir_post (p ++ [x]) fs fs'.
Proof.
  intros (_ & Hsub1 & Hnew1) (Hdir & Hsub2 & Hnew2).
  split; [done|]. split; [by etrans|].
  intros q n Hq Hnone. destruct (fs1 !! q) as [n1|] eqn:Hq1.
  - assert (fs' !! q = Some n1) as Hq'
      by (eapply lookup_weaken; [exact Hq1 | exact Hsub2]).
    simplify_eq. destruct (Hnew1 _ _ Hq1 Hnone) as [-> Hpre].
    split; [done|]. by apply prefix_app_r.
  - by apply Hnew2.
Qed.

Lemma mkdir_noparents_post (p : path) (exist_ok : bool) (fs fs' : FS) :
  mkdir_noparents p exist_ok fs = inr fs' → mkdir_post p fs fs'.
Proof.
  unfold mkdir_noparents. intros H.
  destruct (OS.mkdir p fs) as [e|fs2] eqn:Hmk.
  - destruct e; try done;
      apply mkdir_handle_inr in H as [Hp ->]; by apply mkdir_post_id.
  - simplify_eq. apply OS_mkdir_inr in Hmk as [Hp ->].
    by apply mkdir_post_insert.
Qed.

Lemma mkdir_rev_post (rp : path) (parents exist_ok : bool) (fs fs' : FS) :
  mkdir_rev rp parents exist_ok fs = inr fs' → mkdir_post (rev rp) fs fs'.
Proof.
  revert parents exist_ok fs fs'.
  induction rp as [|x rparent IH]; intros parents exist_ok fs fs' H.
  - simpl in H. destruct (OS.mkdir [] fs) as [e|fs2] eqn:Hmk.
    + destruct e; try done;
        apply mkdir_handle_inr in H as [Hp ->]; by apply mkdir_post_id.
    + simplify_eq. apply OS_mkdir_inr in Hmk as [Hp ->].
      by apply mkdir_post_insert.
  - cbn [mkdir_rev] in H. cbn [rev].
    destruct (OS.mkdir (rev (x :: rparent)) fs) as [e|fs2] eqn:Hmk.
    + destruct e;
        try (apply mkdir_handle_inr in H as [Hp ->]; by apply mkdir_post_id).
      destruct parents; [|done].
      destruct (mkdir_rev rparent true true fs) as [e|fs1] eqn:Hrec; [done|].
      apply IH in Hrec. apply mkdir_noparents_post in H.
      by eapply mkdir_post_trans.
    + simplify_eq. apply OS_mkdir_inr in Hmk as [Hp ->].
      by apply mkdir_post_insert.
Qed.

Lemma pathlib_mkdir_post (p : path) (parents exist_ok : bool) (fs fs' : FS) :
  pathlib_mkdir p parents exist_ok fs = inr fs' → mkdir_post p fs fs'.
Proof.
  unfold pathlib_mkdir. intros H. apply mkdir_rev_post in H.
  by rewrite rev_involutive in H.
Qed.

(** On a directory that is already there, [mkdir(exist_ok=True)] does
    nothing. *)
Lemma mkdir_rev_exists (rp : path) (parents : bool) (fs : FS) :
  fs !! rev rp = Some Dir → mkdir_rev rp parents true fs = inr fs.
Proof.
  intros Hp.
  assert (OS.mkdir (rev rp) fs = inl FileExistsError) as Hmk
    by (unfold OS.mkdir; by rewrite Hp).
  assert (mkdir_handle (rev rp) true FileExistsError fs = inr fs) as Hh
    by (unfold mkdir_handle, OS.is_dir; by rewrite Hp).
  destruct rp as [|x rp]; cbn [mkdir_rev]; by rewrite Hmk.
Qed.

Lemma pathlib_mkdir_exists (p : path) (parents : bool) (fs : FS) :
  fs !! p = Some Dir → pathlib_mkdir p parents true fs = inr fs.
Proof.
  intros Hp. apply mkdir_rev_exists. by rewrite rev_involutive.
Qed.

(** A [mkdir] creates no file, changes none, and does not touch what lies
    below the directory it creates. *)
Lemma mkdir_post_files (p : path) (fs fs' : FS) (q : path) (d : list byte) :
  mkdir_post p fs fs' → fs' !! q = Some (File d) ↔ fs !! q = Some (File d).
Proof.
  intros (_ & Hsub & Hnew). split; intros Hq.
  - destruct (fs !! q) as [n|] eqn:Hq0.
    + assert (fs' !! q = Some n) by (eapply lookup_weaken; eauto). congruence.
    + by destruct (Hnew _ _ Hq Hq0).
  - eapply lookup_weaken; eauto.
Qed.

Lemma mkdir_post_below (p : path) (x : string) (fs fs' : FS) :
  mkdir_post p fs fs' → fs' !! (p ++ [x]) = fs !! (p ++ [x]).
Proof.
  intros (_ & Hsub & Hnew).
  destruct (fs !! (p ++ [x])) as [n|] eqn:Hq0.
  - eapply lookup_weaken; eauto.
  - destruct (fs' !! (p ++ [x])) as [n|] eqn:Hq; [|done].
    destruct (Hnew _ _ Hq Hq0) as [_ Hpre].
    apply prefix_length in Hpre. rewrite length_app in Hpre. simpl in Hpre. lia.
Qed.

(** ** The script *)

Section Verification.

Variable svg2png_render : list byte → Z → Z → option (list byte).
Variable pil_identify : list byte → bool.
Variable ico_encode : Image → list (Z * Z) → list Image → option (list byte).
Variable script_file : path.

Local Abbreviation SVG := (SVG_PATH script_file).
Local Abbreviation DIR := (FAVICON_DIR script_file).
Local Abbreviation ICO := (FAVICON_DIR script_file // "favicon.ico").
Local Abbreviation png_loop l :=
  (for_each l (λ '(filename, size),
     svg_to_png svg2png_render SVG (DIR // filename) size)).

(** *** The path constants *)

Lemma FAVICON_DIR_eq :
  DIR = PROJECT_ROOT script_file ++ ["packages"; "react-ui"; "public"; "favicons"].
Proof. reflexivity. Qed.

Lemma SVG_PATH_eq : SVG = DIR ++ ["favicon.svg"].
Proof.
  unfold SVG_PATH. rewrite FAVICON_DIR_eq, <- app_assoc. reflexivity.
Qed.

Lemma ICO_eq : ICO = DIR ++ ["favicon.ico"].
Proof. apply joinpath_plain. unfold plain_name. vm_decide. Qed.

Lemma ico_png_path_16 :
  ico_png_path script_file 16 = DIR ++ ["favicon-16x16.png"].
Proof.
  unfold ico_png_path.
  change ("favicon-" +:+ pretty 16%Z +:+ "x" +:+ pretty 16%Z +:+ ".png")
    with "favicon-16x16.png".
  apply joinpath_plain. unfold plain_name. vm_decide.
Qed.

Lemma ico_png_path_32 :
  ico_png_path script_file 32 = DIR ++ ["favicon-32x32.png"].
Proof.
  unfold ico_png_path.
  change ("favicon-" +:+ pretty 32%Z +:+ "x" +:+ pretty 32%Z +:+ ".png")
    with "favicon-32x32.png".
  apply joinpath_plain. unfold plain_name. vm_decide.
Qed.

Lemma ico_png_path_48 :
  ico_png_path script_file 48 = DIR ++ ["favicon-48x48.png"].
Proof.
  unfold ico_png_path.
  change ("favicon-" +:+ pretty 48%Z +:+ "x" +:+ pretty 48%Z +:+ ".png")
    with "favicon-48x48.png".
  apply joinpath_plain. unfold plain_name. vm_decide.
Qed.

(** Every name in the table is a single component, and none is the
    source's. *)
Lemma PNG_SIZES_names :
  Forall (λ entry : string * Z, output_name entry.1) PNG_SIZES.
Proof. unfold output_name, plain_name. vm_decide. Qed.

Lemma output_target (f : string) : output_name f → DIR // f = DIR ++ [f].
Proof. intros [Hf _]. by apply joinpath_plain. Qed.

Lemma output_target_ne_SVG (f : string) : output_name f → DIR // f ≠ SVG.
Proof.
  intros Hf. rewrite (output_target f Hf), SVG_PATH_eq.
  apply snoc_inj_ne. by destruct Hf.
Qed.

Lemma output_target_ne_DIR (f : string) : output_name f → DIR // f ≠ DIR.
Proof. intros Hf. rewrite (output_target f Hf). apply snoc_ne_self. Qed.

Lemma output_target_parent (f : string) :
  output_name f → Path.parent (DIR // f) = DIR.
Proof. intros Hf. rewrite (output_target f Hf). apply parent_snoc. Qed.

(** *** One [svg_to_png] call *)

Lemma svg_to_png_run (svg_path png_path : path) (size : Z) w :
  svg_to_png svg2png_render svg_path png_path size w =
    prepend [EvPrint ("Generating " +:+ Path.name png_path +:+ " ("
                      +:+ pretty size +:+ "x" +:+ pretty size +:+ ")...")]
      (cairosvg_svg2png svg2png_render svg_path png_path size size w).
Proof. reflexivity. Qed.

(** The call succeeds when the source is a file the rasterizer accepts
    and the target can be opened. *)
Lemma svg_to_png_ok (f : string) (size : Z) w (svg png : list byte) :
  output_name f →
  fs w !! SVG = Some (File svg) →
  fs w !! DIR = Some Dir →
  svg2png_render svg size size = Some png →
  fs w !! (DIR // f) ≠ Some Dir →
  svg_to_png svg2png_render SVG (DIR // f) size w =
    Result (Ret tt) (set_fs w (<[DIR // f := File png]> (fs w)))
      (png_events script_file (f, size)).
Proof.
  intros Hf Hsvg Hdir Hrender Htgt.
  rewrite svg_to_png_run, cairosvg_svg2png_run.
  unfold OS.read, OS.open_wb. rewrite Hsvg, Hrender.
  rewrite (output_target_parent f Hf), Hdir.
  destruct (fs w !! (DIR // f)) as [[|d]|]; done.
Qed.

(** It fails, and writes nothing, when the rasterizer rejects the
    source. *)
Lemma svg_to_png_render_fails (f : string) (size : Z) w (svg : list byte) :
  fs w !! SVG = Some (File svg) →
  svg2png_render svg size size = None →
  svg_to_png svg2png_render SVG (DIR // f) size w =
    Result (Raise RenderError) w (png_events script_file (f, size)).
Proof.
  intros Hsvg Hrender. rewrite svg_to_png_run, cairosvg_svg2png_run.
  unfold OS.read. by rewrite Hsvg, Hrender.
Qed.

(** Whenever it returns, all of that was the case. *)
Lemma svg_to_png_inv (f : string) (size : Z) w :
  output_name f →
  res (svg_to_png svg2png_render SVG (DIR // f) size w) = Ret tt →
  ∃ svg png,
    fs w !! SVG = Some (File svg) ∧
    fs w !! DIR = Some Dir ∧
    svg2png_render svg size size = Some png ∧
    fs w !! (DIR // f) ≠ Some Dir.
Proof.
  intros Hf. rewrite svg_to_png_run, cairosvg_svg2png_run.
  unfold OS.read, OS.open_wb. rewrite (output_target_parent f Hf).
  destruct (fs w !! SVG) as [[|svg]|] eqn:Hsvg; [done| |done].
  destruct (svg2png_render svg size size) as [png|] eqn:Hpng; [|done].
  destruct (fs w !! DIR) as [[|d]|] eqn:Hdir; [| |].
  - destruct (fs w !! (DIR // f)) as [[|d]|]; [done| |]; intros _;
      exists svg, png; by repeat split.
  - by destruct (fs w !! (DIR // f)) as [[|d']|].
  - by destruct (fs w !! (DIR // f)) as [[|d']|].
Qed.

(** *** The rasterization loop *)

Lemma bind_ext {A B} (m : M A) (k1 k2 : A → M B) (w : World) :
  (∀ a w', k1 a w' = k2 a w') → bind m k1 w = bind m k2 w.
Proof.
  intros Hk. rewrite !bind_run. destruct (res (m w)); [|done..].
  by rewrite Hk.
Qed.

Lemma for_each_app {A} (l1 l2 : list A) (body : A → M unit) (w : World) :
  for_each (l1 ++ l2) body w =
    bind (for_each l1 body) (λ _, for_each l2 body) w.
Proof.
  revert w. induction l1 as [|x l1 IH]; intros w.
  - simpl. rewrite bind_run. simpl. by rewrite prepend_nil.
  - simpl. rewrite bind_assoc. apply bind_ext. intros _ w'. apply IH.
Qed.

Lemma written_nil (svg : list byte) (fs0 : FS) :
  written svg2png_render script_file svg [] fs0 = fs0.
Proof. reflexivity. Qed.

Lemma written_cons (svg : list byte) (f : string) (size : Z)
    (l : list (string * Z)) (fs0 : FS) (png : list byte) :
  svg2png_render svg size size = Some png →
  written svg2png_render script_file svg ((f, size) :: l) fs0 =
    written svg2png_render script_file svg l (<[DIR // f := File png]> fs0).
Proof. intros H. unfold written. simpl. by rewrite H. Qed.

Lemma written_snoc (svg : list byte) (f : string) (size : Z)
    (l : list (string * Z)) (fs0 : FS) (png : list byte) :
  svg2png_render svg size size = Some png →
  written svg2png_render script_file svg (l ++ [(f, size)]) fs0 =
    <[DIR // f := File png]> (written svg2png_render script_file svg l fs0).
Proof. intros H. unfold written. rewrite foldl_app. simpl. by rewrite H. Qed.

(** Every path is either as it was or holds the PNG of an entry. *)
Lemma written_cases (svg : list byte) (l : list (string * Z)) (fs0 : FS)
    (q : path) :
  written svg2png_render script_file svg l fs0 !! q = fs0 !! q ∨
  ∃ f size png,
    (f, size) ∈ l ∧ q = DIR // f ∧
    svg2png_render svg size size = Some png ∧
    written svg2png_render script_file svg l fs0 !! q = Some (File png).
Proof.
  induction l as [|[f size] l IH] using rev_ind; [by left|].
  unfold written. rewrite foldl_app. simpl.
  fold (written svg2png_render script_file svg l fs0).
  destruct (svg2png_render svg size size) as [png|] eqn:Hpng.
  - destruct (decide (DIR // f = q)) as [<-|Hne].
    + right. exists f, size, png. rewrite lookup_insert_eq.
      split; [|done]. apply elem_of_app. right. by apply list_elem_of_singleton.
    + rewrite lookup_insert_ne by done.
      destruct IH as [IH|(f' & s' & png' & Hin & ? & ? & ?)]; [by left|].
      right. exists f', s', png'. split; [|done].
      apply elem_of_app. by left.
  - destruct IH as [IH|(f' & s' & png' & Hin & ? & ? & ?)]; [by left|].
    right. exists f', s', png'. split; [|done]. apply elem_of_app. by left.
Qed.

Lemma written_SVG (svg : list byte) (l : list (string * Z)) (fs0 : FS) :
  Forall (λ entry : string * Z, output_name entry.1) l →
  written svg2png_render script_file svg l fs0 !! SVG = fs0 !! SVG.
Proof.
  intros Hl. destruct (written_cases svg l fs0 SVG)
    as [H|(f & s & png & Hin & Heq & _)]; [done|].
  rewrite Forall_forall in Hl. specialize (Hl _ Hin).
  by destruct (output_target_ne_SVG f Hl).
Qed.

Lemma written_DIR (svg : list byte) (l : list (string * Z)) (fs0 : FS) :
  Forall (λ entry : string * Z, output_name entry.1) l →
  written svg2png_render script_file svg l fs0 !! DIR = fs0 !! DIR.
Proof.
  intros Hl. destruct (written_cases svg l fs0 DIR)
    as [H|(f & s & png & Hin & Heq & _)]; [done|].
  rewrite Forall_forall in Hl. specialize (Hl _ Hin).
  by destruct (output_target_ne_DIR f Hl).
Qed.

Lemma written_not_dir (svg : list byte) (l : list (string * Z)) (fs0 : FS)
    (q : path) :
  fs0 !! q ≠ Some Dir →
  written svg2png_render script_file svg l fs0 !! q ≠ Some Dir.
Proof.
  intros Hq. destruct (written_cases svg l fs0 q)
    as [H|(f & s & png & _ & _ & _ & H)]; rewrite H; [done|congruence].
Qed.

(** With distinct names, the target of an entry holds that entry's PNG. *)
Lemma written_entry (svg : list byte) (l : list (string * Z)) (fs0 : FS)
    (f : string) (size : Z) (png : list byte) :
  Forall (λ entry : string * Z, output_name entry.1) l →
  NoDup l.*1 →
  (f, size) ∈ l →
  svg2png_render svg size size = Some png →
  written svg2png_render script_file svg l fs0 !! (DIR // f) = Some (File png).
Proof.
  revert fs0. induction l as [|[f' s'] l IH]; intros fs0 Hl Hnd Hin Hpng.
  - by apply elem_of_nil in Hin.
  - apply Forall_cons in Hl as [Hf' Hl]. simpl in Hf'.
    rewrite fmap_cons in Hnd. apply NoDup_cons in Hnd as [Hnotin Hnd].
    apply elem_of_cons in Hin as [Heq|Hin].
    + injection Heq as <- <-. rewrite (written_cons _ _ _ _ _ _ Hpng).
      destruct (written_cases svg l (<[DIR // f := File png]> fs0) (DIR // f))
        as [H|(f2 & s2 & png2 & Hin2 & Heq2 & _)].
      * by rewrite H, lookup_insert_eq.
      * exfalso. apply Hnotin. simpl.
        assert (f2 = f) as ->.
        { rewrite Forall_forall in Hl. specialize (Hl _ Hin2). simpl in Hl.
          rewrite (output_target f Hf'), (output_target f2 Hl) in Heq2.
          apply app_inv_head in Heq2. congruence. }
        apply list_elem_of_fmap. by exists (f, s2).
    + destruct (svg2png_render svg s' s') as [png'|] eqn:Hpng'.
      * rewrite (written_cons _ _ _ _ _ _ Hpng'). by apply IH.
      * unfold written. simpl. rewrite Hpng'. by apply IH.
Qed.

Lemma raster_ready_cons (svg : list byte) (f : string) (size : Z)
    (l : list (string * Z)) (fs0 : FS) (png : list byte) :
  output_name f →
  svg2png_render svg size size = Some png →
  raster_ready svg2png_render script_file svg ((f, size) :: l) fs0 →
  raster_ready svg2png_render script_file svg l
    (<[DIR // f := File png]> fs0).
Proof.
  intros Hf Hpng (Hsvg & Hdir & Hall).
  apply Forall_cons in Hall as [_ Hall]. split; [|split].
  - by rewrite lookup_insert_ne by by apply output_target_ne_SVG.
  - by rewrite lookup_insert_ne by by apply output_target_ne_DIR.
  - eapply Forall_impl; [exact Hall|]. intros [f' s'] [Hr Ht]. split; [done|].
    simpl. destruct (decide (DIR // f = DIR // f')) as [<-|Hne].
    + by rewrite lookup_insert_eq.
    + by rewrite lookup_insert_ne.
Qed.

(** The loop gets through a list of entries that is ready, writing one
    PNG per entry. *)
Lemma png_loop_ok (svg : list byte) (l : list (string * Z)) (w : World) :
  Forall (λ entry : string * Z, output_name entry.1) l →
  raster_ready svg2png_render script_file svg l (fs w) →
  png_loop l w =
    Result (Ret tt)
      (set_fs w (written svg2png_render script_file svg l (fs w)))
      (flat_map (png_events script_file) l).
Proof.
  revert w. induction l as [|[f size] l IH]; intros w Hl Hready.
  - cbn [for_each flat_map]. unfold ret. by rewrite written_nil, set_fs_id.
  - apply Forall_cons in Hl as [Hf Hl]. simpl in Hf.
    pose proof Hready as (Hsvg & Hdir & Hall).
    apply Forall_cons in Hall as [[[png Hpng] Htgt] _]. simpl in Hpng, Htgt.
    cbn [for_each]. rewrite bind_run.
    rewrite (svg_to_png_ok f size w svg png Hf Hsvg Hdir Hpng Htgt).
    cbn [res world log].
    rewrite IH; [|done|].
    + unfold prepend. cbn [res world log fs set_fs].
      by rewrite (written_cons _ _ _ _ _ _ Hpng).
    + cbn [fs set_fs]. by eapply raster_ready_cons.
Qed.

Lemma raster_ready_uncons (svg : list byte) (f : string) (size : Z)
    (l : list (string * Z)) (fs0 : FS) (png : list byte) :
  fs0 !! SVG = Some (File svg) →
  fs0 !! DIR = Some Dir →
  svg2png_render svg size size = Some png →
  fs0 !! (DIR // f) ≠ Some Dir →
  Forall (λ entry : string * Z,
            is_Some (svg2png_render svg entry.2 entry.2) ∧
            <[DIR // f := File png]> fs0 !! (DIR // entry.1) ≠ Some Dir) l →
  raster_ready svg2png_render script_file svg ((f, size) :: l) fs0.
Proof.
  intros Hsvg Hdir Hpng Htgt Hall. split; [done|]. split; [done|].
  apply Forall_cons. split; [by split; [exists png|]|].
  eapply Forall_impl; [exact Hall|]. intros [f' s'] [Hr Ht]. split; [done|].
  simpl in *. destruct (decide (DIR // f = DIR // f')) as [<-|Hne]; [done|].
  by rewrite lookup_insert_ne in Ht.
Qed.

(** Whenever the loop returns, the entries were ready. *)
Lemma png_loop_inv (l : list (string * Z)) (w : World) :
  Forall (λ entry : string * Z, output_name entry.1) l →
  l ≠ [] →
  res (png_loop l w) = Ret tt →
  ∃ svg, raster_ready svg2png_render script_file svg l (fs w).
Proof.
  revert w. induction l as [|[f size] l IH]; intros w Hl Hne Hres; [done|].
  apply Forall_cons in Hl as [Hf Hl]. simpl in Hf.
  cbn [for_each] in Hres. rewrite bind_run in Hres.
  destruct (res (svg_to_png svg2png_render SVG (DIR // f) size w))
    as [[]|c|e] eqn:Hstep; [|done..].
  destruct (svg_to_png_inv f size w Hf Hstep)
    as (svg & png & Hsvg & Hdir & Hpng & Htgt).
  exists svg.
  rewrite (svg_to_png_ok f size w svg png Hf Hsvg Hdir Hpng Htgt) in Hres.
  cbn [res world log prepend] in Hres.
  apply (raster_ready_uncons svg f size l (fs w) png); try done.
  destruct l as [|e l']; [constructor|].
  destruct (IH _ Hl ltac:(done) Hres) as (svg' & Hsvg' & _ & Hall).
  cbn [fs set_fs] in Hsvg', Hall.
  rewrite lookup_insert_ne in Hsvg' by by apply output_target_ne_SVG.
  rewrite Hsvg in Hsvg'. injection Hsvg' as <-. exact Hall.
Qed.

(** When the rasterizer fails on an entry, the loop stops there: the
    entries before it are written, nothing else is. *)
Lemma png_loop_fail (svg : list byte) (pre post : list (string * Z))
    (f : string) (size : Z) (w : World) :
  Forall (λ entry : string * Z, output_name entry.1) pre →
  raster_ready svg2png_render script_file svg pre (fs w) →
  svg2png_render svg size size = None →
  png_loop (pre ++ (f, size) :: post) w =
    Result (Raise RenderError)
      (set_fs w (written svg2png_render script_file svg pre (fs w)))
      (flat_map (png_events script_file) (pre ++ [(f, size)])).
Proof.
  intros Hpre Hready Hfail.
  rewrite for_each_app, bind_run, (png_loop_ok svg pre w Hpre Hready).
  cbn [res world log for_each]. rewrite bind_run.
  rewrite (svg_to_png_render_fails f size _ svg); [| |done].
  - unfold prepend. cbn [res world log].
    rewrite flat_map_app. cbn [flat_map]. by rewrite app_nil_r.
  - cbn [fs set_fs]. rewrite written_SVG by done. by destruct Hready.
Qed.

(** *** The ICO assembly *)

Local Abbreviation load_images' := (load_images pil_identify script_file).
Local Abbreviation create_ico' :=
  (create_ico pil_identify ico_encode script_file).
Local Abbreviation candidate' := (candidate script_file).
Local Abbreviation probe_events' := (probe_events script_file).
Local Abbreviation loadable' := (loadable pil_identify script_file).

Lemma name_snoc (p : path) (x : string) : Path.name (p ++ [x]) = x.
Proof. apply last_last. Qed.

(** Loading never changes the world and only probes and opens. *)
Lemma load_images_frame (sizes : list Z) (images : list Image) (w : World) :
  world (load_images' sizes images w) = w ∧
  Forall (λ e, is_exists e || is_open e = true)
    (log (load_images' sizes images w)).
Proof.
  revert images. induction sizes as [|size sizes IH]; intros images.
  - by split.
  - cbn [load_images]. rewrite bind_run, Path_exists_run. cbn [res world log].
    destruct (OS.exists_ (ico_png_path script_file size) (fs w)).
    + rewrite bind_run, Image_open_run.
      destruct (OS.read (ico_png_path script_file size) (fs w)) as [e|d];
        [by repeat constructor|].
      destruct (pil_identify d); [|by repeat constructor].
      cbn [prepend res world log].
      destruct (IH (images ++ [mkImage (ico_png_path script_file size) d]))
        as [Hw Hl].
      split; [done|]. cbn [app]. by repeat constructor.
    + destruct (IH images) as [Hw Hl].
      split; [done|]. cbn [prepend log app]. by constructor.
Qed.

(** With loadable candidates the loop returns the images of the ones
    that exist, in the order of [sizes]. *)
Lemma load_images_ok (sizes : list Z) (images : list Image) (w : World) :
  loadable' (fs w) sizes →
  load_images' sizes images w =
    Result (Ret (images ++ omap (candidate' (fs w)) sizes)) w
      (probe_events' (fs w) sizes).
Proof.
  revert images. induction sizes as [|size sizes IH]; intros images Hl.
  - cbn [load_images omap]. unfold ret. by rewrite app_nil_r.
  - apply Forall_cons in Hl as [Hsize Hl].
    cbn [load_images]. rewrite bind_run, Path_exists_run. cbn [res world log].
    cbn [omap list_omap probe_events flat_map].
    unfold candidate at 1. unfold OS.exists_.
    destruct (fs w !! ico_png_path script_file size) as [n|] eqn:Hn.
    + destruct (Hsize n eq_refl) as (d & -> & Hid).
      rewrite bind_run, Image_open_run. unfold OS.read. rewrite Hn, Hid.
      cbn [prepend res world log]. rewrite (IH _ Hl).
      cbn [res world log]. by rewrite <- app_assoc.
    + rewrite (IH _ Hl). by cbn [prepend res world log].
Qed.

(** Whenever the loop returns, the candidates were loadable. *)
Lemma load_images_inv (sizes : list Z) (images : list Image) (w : World)
    (imgs : list Image) :
  res (load_images' sizes images w) = Ret imgs → loadable' (fs w) sizes.
Proof.
  revert images. induction sizes as [|size sizes IH]; intros images Hres.
  - constructor.
  - cbn [load_images] in Hres.
    rewrite bind_run, Path_exists_run in Hres. cbn [res world log] in Hres.
    unfold OS.exists_ in Hres. apply Forall_cons.
    destruct (fs w !! ico_png_path script_file size) as [n|] eqn:Hn.
    + rewrite bind_run, Image_open_run in Hres. unfold OS.read in Hres.
      rewrite Hn in Hres. destruct n as [|d]; [done|].
      destruct (pil_identify d) eqn:Hid; [|done].
      cbn [prepend res world log] in Hres. split; [|by eapply IH].
      intros n Hn'. injection Hn' as <-. by exists d.
    + cbn [prepend res] in Hres. split; [|by eapply IH].
      intros n Hn'. done.
Qed.

Lemma create_ico_run (arg : list (string * Z)) (w : World) :
  create_ico' arg w =
    prepend [EvPrint "Generating favicon.ico..."]
      (bind (load_images' [16; 32; 48]%Z [])
         (λ images,
            match images with
            | im0 :: rest =>
                bind (Image_save ico_encode im0 ICO "ICO" ico_sizes rest)
                  (λ _, print ("Created " +:+ Path.name ICO))
            | [] =>
                print "Warning: Could not create ICO file - missing required PNG sizes"
            end) w).
Proof. reflexivity. Qed.

Lemma created_line : "Created " +:+ Path.name ICO = "Created favicon.ico".
Proof. by rewrite ICO_eq, name_snoc. Qed.

(** No candidate: a warning, and nothing else happens. *)
Lemma create_ico_none (arg : list (string * Z)) (w : World) :
  omap (candidate' (fs w)) [16; 32; 48]%Z = [] →
  loadable' (fs w) [16; 32; 48]%Z →
  create_ico' arg w =
    Result (Ret tt) w
      ([EvPrint "Generating favicon.ico..."] ++
       probe_events' (fs w) [16; 32; 48]%Z ++
       [EvPrint "Warning: Could not create ICO file - missing required PNG sizes"]).
Proof.
  intros Hnone Hl. rewrite create_ico_run, bind_run, (load_images_ok _ _ _ Hl).
  cbn [res world log app]. by rewrite Hnone.
Qed.

(** Some candidate: one [save] of the first image with the others
    appended; what follows is up to the target and the encoder. *)
Lemma create_ico_some (arg : list (string * Z)) (w : World)
    (im0 : Image) (rest : list Image) :
  omap (candidate' (fs w)) [16; 32; 48]%Z = im0 :: rest →
  loadable' (fs w) [16; 32; 48]%Z →
  create_ico' arg w =
    prepend ([EvPrint "Generating favicon.ico..."] ++
             probe_events' (fs w) [16; 32; 48]%Z ++
             [EvSave im0 ICO "ICO" ico_sizes rest])
      match OS.open_wb ICO (fs w) with
      | inl e => Result (Raise e) w []
      | inr fs1 =>
          match ico_encode im0 ico_sizes rest with
          | Some ico =>
              Result (Ret tt) (set_fs w (<[ICO := File ico]> (fs w)))
                [EvPrint "Created favicon.ico"]
          | None =>
              Result (Raise EncodeError)
                (if OS.exists_ ICO (fs w) then set_fs w fs1 else w) []
          end
      end.
Proof.
  intros Hsome Hl. rewrite create_ico_run, bind_run, (load_images_ok _ _ _ Hl).
  cbn [res world log app]. rewrite Hsome.
  rewrite bind_run, Image_save_run, created_line.
  destruct (OS.open_wb ICO (fs w)) as [e|fs1]; [by log_norm|].
  destruct (ico_encode im0 ico_sizes rest) as [ico|]; by log_norm.
Qed.

(** *** [main] and the module body *)

Local Abbreviation main' :=
  (main svg2png_render pil_identify ico_encode script_file).
Local Abbreviation script' :=
  (script svg2png_render pil_identify ico_encode script_file).

(** What [main] does once the source has been found. *)
Local Abbreviation main_body :=
  (bind (png_loop PNG_SIZES) (λ _,
     bind (create_ico' PNG_SIZES) (λ _,
       bind (print (nl +:+ "âœ… Favicon generation complete!")) (λ _,
         print ("Files created in: " +:+ Path.str DIR))))).

Lemma main_run (w : World) :
  main' w =
    prepend [EvExists SVG]
      (if OS.exists_ SVG (fs w) then
         prepend [EvPrint ("Using SVG source: " +:+ Path.str SVG);
                  EvPrint ("Output directory: " +:+ Path.str DIR);
                  EvPrint ""]
           (main_body w)
       else
         Result (Exit 1) w
           [EvPrint ("Error: SVG source not found at " +:+ Path.str SVG)]).
Proof.
  unfold main. rewrite bind_run, Path_exists_run. cbn [res world log].
  f_equal. destruct (OS.exists_ SVG (fs w)); cbn [negb]; reflexivity.
Qed.

Lemma import_run (m : string) (w : World) :
  import_ m w =
    if bool_decide (m ∈ modules w) then Result (Ret tt) w [EvImport m]
    else Result (Raise ImportError) w [EvImport m].
Proof.
  unfold import_. rewrite bind_emit. by destruct (bool_decide (m ∈ modules w)).
Qed.

Lemma import_guard_run (handler : M unit) (w : World) :
  try_except_ImportError
    (bind (import_ "cairosvg") (λ _, import_ "PIL")) handler w =
    if bool_decide ("cairosvg" ∈ modules w) then
      if bool_decide ("PIL" ∈ modules w) then
        Result (Ret tt) w [EvImport "cairosvg"; EvImport "PIL"]
      else prepend [EvImport "cairosvg"; EvImport "PIL"] (handler w)
    else prepend [EvImport "cairosvg"] (handler w).
Proof.
  unfold try_except_ImportError. rewrite bind_run, !import_run.
  destruct (bool_decide ("cairosvg" ∈ modules w)); [|reflexivity].
  cbn [res world log prepend]. by destruct (bool_decide ("PIL" ∈ modules w)).
Qed.

Lemma script_run (w : World) :
  script' w =
    if bool_decide ("cairosvg" ∈ modules w) then
      if bool_decide ("PIL" ∈ modules w) then
        prepend [EvImport "cairosvg"; EvImport "PIL"; EvMkdir DIR]
          match pathlib_mkdir DIR true true (fs w) with
          | inl e => Result (Raise e) w []
          | inr fs1 => main' (set_fs w fs1)
          end
      else
        Result (Exit 1) w
          [EvImport "cairosvg"; EvImport "PIL";
           EvPrint "Required packages not found. Please install:";
           EvPrint "  pip install cairosvg pillow"]
    else
      Result (Exit 1) w
        [EvImport "cairosvg";
         EvPrint "Required packages not found. Please install:";
         EvPrint "  pip install cairosvg pillow"].
Proof.
  unfold script. rewrite bind_run, import_guard_run.
  destruct (bool_decide ("cairosvg" ∈ modules w)); [|reflexivity].
  destruct (bool_decide ("PIL" ∈ modules w)); [|reflexivity].
  cbn [res world log]. rewrite bind_run, Path_mkdir_run.
  destruct (pathlib_mkdir DIR true true (fs w)) as [e|fs1];
    cbn [res world log]; [reflexivity|].
  by rewrite prepend_prepend.
Qed.

(** *** The missing source *)

(** C1. When the source SVG does not exist, [main] prints the error
    with the path it looked at and exits with status 1, leaving the
    file system as it was.  For the whole process: the exit status is 1,
    no file is created or changed, and the error line is the last line
    printed unless the import guard or an exception of the [mkdir]
    ended the run before. *)
Theorem svg_missing_exits (w : World) :
  fs w !! SVG = None →
  main' w =
    Result (Exit 1) w
      [EvExists SVG;
       EvPrint ("Error: SVG source not found at " +:+ Path.str SVG)] ∧
  exit_code (res (script' w)) = 1%Z ∧
  (∀ (p : path) (d : list byte),
     fs (world (script' w)) !! p = Some (File d) ↔ fs w !! p = Some (File d)) ∧
  ("cairosvg" ∈ modules w → "PIL" ∈ modules w →
   (∀ e, res (script' w) ≠ Raise e) →
   res (script' w) = Exit 1 ∧
   last (stdout (log (script' w))) =
     Some ("Error: SVG source not found at " +:+ Path.str SVG)).
Proof.
  intros Hsvg.
  assert (∀ w0 : World, fs w0 !! SVG = None →
            main' w0 =
              Result (Exit 1) w0
                [EvExists SVG;
                 EvPrint ("Error: SVG source not found at "
                          +:+ Path.str SVG)]) as Hmain.
  { intros w0 H0. rewrite main_run. unfold OS.exists_. by rewrite H0. }
  split; [by apply Hmain|].
  rewrite script_run.
  destruct (bool_decide_reflect ("cairosvg" ∈ modules w)) as [Hc|Hc];
    [|by split; [|split]].
  destruct (bool_decide_reflect ("PIL" ∈ modules w)) as [Hp|Hp];
    [|by split; [|split]].
  destruct (pathlib_mkdir DIR true true (fs w)) as [e|fs1] eqn:Hmk.
  - cbn [prepend res world log exit_code]. split; [done|]. split; [done|].
    intros _ _ Hno. by destruct (Hno e).
  - apply pathlib_mkdir_post in Hmk.
    assert (fs1 !! SVG = None) as Hsvg1.
    { rewrite SVG_PATH_eq, (mkdir_post_below _ _ _ _ Hmk).
      by rewrite <- SVG_PATH_eq. }
    rewrite (Hmain (set_fs w fs1) Hsvg1).
    cbn [prepend res world log exit_code fs set_fs].
    split; [done|]. split; [|done].
    intros p d. by apply (mkdir_post_files DIR (fs w) fs1 p d Hmk).
Qed.

(** *** Exit status *)

(** Only [sys.exit] ends a run with [Exit], and the loop and the ICO
    assembly never call it. *)
Lemma bind_no_exit {A B} (m : M A) (k : A → M B) (w : World) (c : Z) :
  (∀ c', res (m w) ≠ Exit c') →
  (∀ a w' c', res (k a w') ≠ Exit c') →
  res (bind m k w) ≠ Exit c.
Proof.
  intros Hm Hk. rewrite bind_run.
  destruct (res (m w)) as [a|c'|e] eqn:Hres; cbn [prepend res];
    [apply Hk | by destruct (Hm c') | done].
Qed.

Lemma svg_to_png_no_exit (svg_path png_path : path) (size : Z) (w : World)
    (c : Z) :
  res (svg_to_png svg2png_render svg_path png_path size w) ≠ Exit c.
Proof.
  rewrite svg_to_png_run, cairosvg_svg2png_run. cbn [prepend res].
  by repeat case_match.
Qed.

Lemma png_loop_no_exit (l : list (string * Z)) (w : World) (c : Z) :
  res (png_loop l w) ≠ Exit c.
Proof.
  revert w c. induction l as [|[f size] l IH]; intros w c; [done|].
  cbn [for_each]. apply bind_no_exit.
  - intros c'. apply svg_to_png_no_exit.
  - intros _ w' c'. apply IH.
Qed.

Lemma load_images_no_exit (sizes : list Z) (images : list Image) (w : World)
    (c : Z) :
  res (load_images' sizes images w) ≠ Exit c.
Proof.
  revert images w c.
  induction sizes as [|size sizes IH]; intros images w c; [done|].
  cbn [load_images]. apply bind_no_exit; [done|].
  intros [] w' c'; [|apply IH].
  apply bind_no_exit; [|intros; apply IH].
  intros c''. rewrite Image_open_run. cbn [prepend res].
  by repeat case_match.
Qed.

Lemma create_ico_no_exit (arg : list (string * Z)) (w : World) (c : Z) :
  res (create_ico' arg w) ≠ Exit c.
Proof.
  rewrite create_ico_run. cbn [prepend res]. apply bind_no_exit.
  - intros c'. apply load_images_no_exit.
  - intros [|im0 rest] w' c'; [done|].
    apply bind_no_exit; [|done].
    intros c''. rewrite Image_save_run. cbn [prepend res].
    by repeat case_match.
Qed.



(** *** A run that gets to the end *)

Local Abbreviation written' := (written svg2png_render script_file).
Local Abbreviation rendered' := (rendered svg2png_render).
Local Abbreviation ico_source' := (ico_source svg2png_render script_file).
Local Abbreviation raster_ready' := (raster_ready svg2png_render script_file).
Local Abbreviation success_log' := (success_log svg2png_render script_file).
Local Abbreviation success_fs' := (success_fs svg2png_render script_file).
Local Abbreviation success_conditions' :=
  (success_conditions svg2png_render pil_identify ico_encode script_file).

Lemma PNG_SIZES_NoDup : NoDup PNG_SIZES.*1.
Proof. vm_decide. Qed.

Lemma raster_ready_rendered (svg : list byte) (l : list (string * Z))
    (fs0 : FS) (f : string) (size : Z) :
  raster_ready' svg l fs0 → (f, size) ∈ l →
  svg2png_render svg size size = Some (rendered' svg size).
Proof.
  intros (_ & _ & Hall) Hin. rewrite Forall_forall in Hall.
  destruct (Hall _ Hin) as [[png Hpng] _]. simpl in Hpng.
  unfold rendered. by rewrite Hpng.
Qed.

(** After the loop every target of the table holds its PNG. *)
Lemma written_PNG (svg : list byte) (fs1 : FS) (f : string) (size : Z) :
  raster_ready' svg PNG_SIZES fs1 → (f, size) ∈ PNG_SIZES →
  written' svg PNG_SIZES fs1 !! (DIR ++ [f]) =
    Some (File (rendered' svg size)).
Proof.
  intros Hready Hin.
  assert (output_name f) as Hf.
  { pose proof PNG_SIZES_names as Hn. rewrite Forall_forall in Hn.
    apply (Hn _ Hin). }
  rewrite <- (output_target f Hf).
  apply (written_entry svg PNG_SIZES fs1 f size).
  - apply PNG_SIZES_names.
  - apply PNG_SIZES_NoDup.
  - done.
  - by eapply raster_ready_rendered.
Qed.

Lemma written_other (svg : list byte) (l : list (string * Z)) (fs0 : FS)
    (q : path) :
  (∀ f size, (f, size) ∈ l → q ≠ DIR // f) →
  written' svg l fs0 !! q = fs0 !! q.
Proof.
  intros Hq. destruct (written_cases svg l fs0 q)
    as [H|(f & s & png & Hin & Heq & _)]; [done|].
  by destruct (Hq f s Hin).
Qed.

Lemma written_ICO (svg : list byte) (fs0 : FS) :
  written' svg PNG_SIZES fs0 !! ICO = fs0 !! ICO.
Proof.
  apply written_other. intros f size Hin.
  assert (output_name f) as Hf.
  { pose proof PNG_SIZES_names as Hn. rewrite Forall_forall in Hn.
    apply (Hn _ Hin). }
  rewrite ICO_eq, (output_target f Hf). apply snoc_inj_ne.
  intros <-. revert Hin. rewrite list_elem_of_In. clear.
  intros Hin. simpl in Hin. intuition congruence.
Qed.

Lemma written_candidate (svg : list byte) (fs1 : FS) (size : Z) :
  raster_ready' svg PNG_SIZES fs1 → size ∈ [16; 32; 48]%Z →
  written' svg PNG_SIZES fs1 !! ico_png_path script_file size =
    Some (File (rendered' svg size)).
Proof.
  intros Hready Hin.
  repeat (apply elem_of_cons in Hin as [->|Hin]);
    [rewrite ico_png_path_16|rewrite ico_png_path_32
    |rewrite ico_png_path_48|by apply elem_of_nil in Hin];
    apply written_PNG; try done; vm_decide.
Qed.

Lemma create_ico_inv (arg : list (string * Z)) (w : World) :
  res (create_ico' arg w) = Ret tt → loadable' (fs w) [16; 32; 48]%Z.
Proof.
  rewrite create_ico_run, bind_run. cbn [prepend res].
  destruct (res (load_images' [16; 32; 48]%Z [] w)) as [imgs|c|e] eqn:Hload;
    [|done..].
  intros _. by eapply load_images_inv.
Qed.

(** With the three PNGs in place, all three candidates are found. *)
Lemma candidates_full (fs2 : FS) (svg : list byte) :
  (∀ size, size ∈ [16; 32; 48]%Z →
     fs2 !! ico_png_path script_file size = Some (File (rendered' svg size))) →
  omap (candidate' fs2) [16; 32; 48]%Z =
    [ico_source' svg 16; ico_source' svg 32; ico_source' svg 48] ∧
  probe_events' fs2 [16; 32; 48]%Z =
    [EvExists (ico_png_path script_file 16);
     EvOpen (ico_png_path script_file 16);
     EvExists (ico_png_path script_file 32);
     EvOpen (ico_png_path script_file 32);
     EvExists (ico_png_path script_file 48);
     EvOpen (ico_png_path script_file 48)] ∧
  (loadable' fs2 [16; 32; 48]%Z ↔
   Forall (λ size, pil_identify (rendered' svg size) = true) [16; 32; 48]%Z).
Proof.
  intros H.
  assert (fs2 !! ico_png_path script_file 16 = Some (File (rendered' svg 16)))
    as H16 by (apply H; vm_decide).
  assert (fs2 !! ico_png_path script_file 32 = Some (File (rendered' svg 32)))
    as H32 by (apply H; vm_decide).
  assert (fs2 !! ico_png_path script_file 48 = Some (File (rendered' svg 48)))
    as H48 by (apply H; vm_decide).
  split; [|split].
  - cbn [omap list_omap]. unfold candidate. by rewrite H16, H32, H48.
  - cbn [probe_events flat_map]. unfold OS.exists_.
    by rewrite H16, H32, H48.
  - unfold loadable. rewrite !Forall_cons. rewrite H16, H32, H48.
    split.
    + intros (A & B & C & _).
      destruct (A _ eq_refl) as (? & [= <-] & ?).
      destruct (B _ eq_refl) as (? & [= <-] & ?).
      destruct (C _ eq_refl) as (? & [= <-] & ?). by repeat split.
    + intros (A & B & C & _).
      repeat split; try done; intros n [= <-]; eauto.
Qed.

(** Under the conditions the script runs to its end, and this is what
    it has done by then. *)
Lemma script_ok (w : World) (fs1 : FS) (svg ico : list byte) :
  success_conditions' w fs1 svg ico →
  script' w =
    Result (Ret tt) (set_fs w (success_fs' fs1 svg ico)) (success_log' svg).
Proof.
  intros (Hc & Hp & Hmk & Hready & Hid & Henc & Hico).
  pose proof Hready as (Hsvg & Hdir & _).
  rewrite script_run, (bool_decide_eq_true_2 _ Hc),
    (bool_decide_eq_true_2 _ Hp), Hmk, main_run.
  unfold OS.exists_ at 1. cbn [fs set_fs]. rewrite Hsvg.
  rewrite bind_run,
    (png_loop_ok svg PNG_SIZES (set_fs w fs1) PNG_SIZES_names Hready).
  cbn [res world log fs set_fs]. rewrite bind_run.
  destruct (candidates_full (written' svg PNG_SIZES fs1) svg)
    as (Hcand & Hprobe & Hload);
    [intros size Hsize; by apply written_candidate|].
  rewrite set_fs_set_fs.
  rewrite (create_ico_some PNG_SIZES
             (set_fs w (written' svg PNG_SIZES fs1)) _ _ Hcand
             (proj2 Hload Hid)).
  cbn [fs set_fs]. rewrite Hprobe, Henc.
  unfold OS.open_wb. rewrite written_ICO.
  replace (Path.parent ICO) with DIR by (by rewrite ICO_eq, parent_snoc).
  rewrite (written_DIR _ _ _ PNG_SIZES_names), Hdir.
  destruct (fs1 !! ICO) as [[|d]|] eqn:HICO; [done|..]; by log_norm.
Qed.

(** Whenever the script runs to its end, the conditions held. *)
Lemma script_inv (w : World) :
  res (script' w) = Ret tt → ∃ fs1 svg ico, success_conditions' w fs1 svg ico.
Proof.
  rewrite script_run.
  destruct (bool_decide_reflect ("cairosvg" ∈ modules w)) as [Hc|Hc]; [|done].
  destruct (bool_decide_reflect ("PIL" ∈ modules w)) as [Hp|Hp]; [|done].
  destruct (pathlib_mkdir DIR true true (fs w)) as [e|fs1] eqn:Hmk; [done|].
  rewrite main_run. cbn [prepend res].
  destruct (OS.exists_ SVG (fs (set_fs w fs1))); [|done].
  cbn [prepend res]. rewrite bind_run.
  destruct (res (png_loop PNG_SIZES (set_fs w fs1))) as [[]|c|e] eqn:Hloop;
    [|done..].
  destruct (png_loop_inv PNG_SIZES _ PNG_SIZES_names ltac:(done) Hloop)
    as [svg Hready].
  rewrite (png_loop_ok svg PNG_SIZES (set_fs w fs1) PNG_SIZES_names Hready).
  cbn [prepend res world log]. rewrite fs_set_fs, set_fs_set_fs, bind_run.
  destruct (res (create_ico' PNG_SIZES
                   (set_fs w (written' svg PNG_SIZES fs1))))
    as [[]|c|e] eqn:Hres; cbn [prepend res]; [|done..].
  intros _. pose proof (create_ico_inv _ _ Hres) as Hl.
  cbn [fs set_fs] in Hready, Hl.
  destruct (candidates_full (written' svg PNG_SIZES fs1) svg)
    as (Hcand & Hprobe & Hload);
    [intros size Hsize; by apply written_candidate|].
  rewrite (create_ico_some PNG_SIZES
             (set_fs w (written' svg PNG_SIZES fs1)) _ _ Hcand Hl) in Hres.
  cbn [prepend res fs set_fs] in Hres.
  destruct (OS.open_wb ICO (written' svg PNG_SIZES fs1)) as [e|fs3] eqn:Hopen;
    [done|].
  destruct (ico_encode (ico_source' svg 16) ico_sizes
              [ico_source' svg 32; ico_source' svg 48]) as [ico|] eqn:Henc;
    [|done].
  exists fs1, svg, ico.
  do 4 (split; [done|]). split; [by apply Hload|]. split; [done|].
  intros HICO. unfold OS.open_wb in Hopen.
  by rewrite written_ICO, HICO in Hopen.
Qed.

Lemma script_success (w : World) :
  res (script' w) = Ret tt →
  ∃ fs1 svg ico,
    success_conditions' w fs1 svg ico ∧
    script' w =
      Result (Ret tt) (set_fs w (success_fs' fs1 svg ico)) (success_log' svg).
Proof.
  intros Hres. destruct (script_inv w Hres) as (fs1 & svg & ico & Hcond).
  exists fs1, svg, ico. split; [done|]. by apply script_ok.
Qed.

Lemma PNG_SIZES_output (f : string) (size : Z) :
  (f, size) ∈ PNG_SIZES → output_name f ∧ f ≠ "favicon.ico".
Proof.
  intros Hin. split.
  - pose proof PNG_SIZES_names as Hn. rewrite Forall_forall in Hn.
    apply (Hn _ Hin).
  - intros ->. revert Hin. rewrite list_elem_of_In. clear.
    intros Hin. simpl in Hin. intuition congruence.
Qed.

Lemma success_fs_PNG (fs1 : FS) (svg ico : list byte) (f : string) (size : Z) :
  raster_ready' svg PNG_SIZES fs1 → (f, size) ∈ PNG_SIZES →
  success_fs' fs1 svg ico !! (DIR ++ [f]) = Some (File (rendered' svg size)).
Proof.
  intros Hready Hin. unfold success_fs.
  destruct (PNG_SIZES_output f size Hin) as [_ Hne].
  rewrite lookup_insert_ne by (rewrite ICO_eq; by apply snoc_inj_ne).
  by apply written_PNG.
Qed.

Lemma success_fs_SVG (fs1 : FS) (svg ico : list byte) :
  success_fs' fs1 svg ico !! SVG = fs1 !! SVG.
Proof.
  unfold success_fs.
  rewrite lookup_insert_ne
    by (rewrite ICO_eq, SVG_PATH_eq; by apply snoc_inj_ne).
  apply written_SVG, PNG_SIZES_names.
Qed.

Lemma success_fs_DIR (fs1 : FS) (svg ico : list byte) :
  success_fs' fs1 svg ico !! DIR = fs1 !! DIR.
Proof.
  unfold success_fs.
  rewrite lookup_insert_ne by (rewrite ICO_eq; apply snoc_ne_self).
  apply written_DIR, PNG_SIZES_names.
Qed.

(** Writing the same outputs a second time changes nothing. *)
Lemma success_fs_idemp (fs1 : FS) (svg ico : list byte) :
  raster_ready' svg PNG_SIZES fs1 →
  success_fs' (success_fs' fs1 svg ico) svg ico = success_fs' fs1 svg ico.
Proof.
  intros Hready. apply map_eq. intros q.
  unfold success_fs at 1 3.
  destruct (decide (ICO = q)) as [<-|Hne]; [by rewrite !lookup_insert_eq|].
  rewrite !lookup_insert_ne by done.
  destruct (written_cases svg PNG_SIZES (success_fs' fs1 svg ico) q)
    as [H|(f & s & png & Hin & -> & Hpng & H)]; rewrite H.
  - unfold success_fs. by rewrite lookup_insert_ne.
  - symmetry. apply (written_entry svg PNG_SIZES fs1 f s png);
      [apply PNG_SIZES_names|apply PNG_SIZES_NoDup|done..].
Qed.

(** *** The order of the steps *)

(** C3, as the script has it.  On a run that gets to the end the events
    are, in this order: the import guard, the creation of the output
    directory, the check that the source exists, the rasterization of
    every entry of the table, the ICO assembly, the completion report.
    On every run the output directory is created before the source is
    looked for: a log in which the check occurs starts with the two
    imports, the [mkdir] and the check. *)
Theorem steps_in_order (w : World) :
  (res (script' w) = Ret tt →
   ∃ svg, fs w !! SVG = Some (File svg) ∧
          log (script' w) = success_log' svg) ∧
  (EvExists SVG ∈ log (script' w) →
   ∃ tail, log (script' w) =
             [EvImport "cairosvg"; EvImport "PIL"; EvMkdir DIR;
              EvExists SVG] ++ tail).
Proof.
  split.
  - intros Hres.
    destruct (script_success w Hres) as (fs1 & svg & ico & Hcond & Hrun).
    exists svg. split; [|by rewrite Hrun].
    destruct Hcond as (_ & _ & Hmk & (Hsvg & _) & _).
    apply pathlib_mkdir_post in Hmk.
    rewrite SVG_PATH_eq, <- (mkdir_post_below _ _ _ _ Hmk).
    by rewrite <- SVG_PATH_eq.
  - rewrite script_run.
    destruct (bool_decide ("cairosvg" ∈ modules w)).
    + destruct (bool_decide ("PIL" ∈ modules w)).
      * destruct (pathlib_mkdir DIR true true (fs w)) as [e|fs1].
        -- cbn [prepend log app]. rewrite !elem_of_cons, elem_of_nil.
           intros H. exfalso. intuition discriminate.
        -- rewrite main_run. intros _. cbn [prepend log res world app].
           by eexists.
      * cbn [log]. rewrite !elem_of_cons, elem_of_nil.
        intros H. exfalso. intuition discriminate.
    + cbn [log]. rewrite !elem_of_cons, elem_of_nil.
      intros H. exfalso. intuition discriminate.
Qed.

(** *** The size table and the rasterizer calls *)

Lemma svg_to_png_log (svg_path png_path : path) (size : Z) (w : World) :
  List.filter is_svg2png
    (log (svg_to_png svg2png_render svg_path png_path size w)) =
    [EvSvg2Png svg_path png_path size size].
Proof.
  rewrite svg_to_png_run, cairosvg_svg2png_run. cbn [prepend log].
  by repeat case_match.
Qed.

Lemma flat_map_png_events_calls (l : list (string * Z)) :
  Forall (λ entry : string * Z, output_name entry.1) l →
  List.filter is_svg2png (flat_map (png_events script_file) l) =
    map (λ entry, EvSvg2Png SVG (DIR ++ [entry.1]) entry.2 entry.2) l.
Proof.
  induction l as [|[f size] l IH]; intros Hl; [done|].
  apply Forall_cons in Hl as [Hf Hl]. simpl in Hf.
  cbn [flat_map map]. rewrite List.filter_app, (IH Hl).
  unfold png_events. cbn [List.filter is_svg2png app fst snd].
  by rewrite (output_target f Hf).
Qed.

Lemma success_log_calls (svg : list byte) :
  List.filter is_svg2png (success_log' svg) =
    map (λ entry, EvSvg2Png SVG (DIR ++ [entry.1]) entry.2 entry.2) PNG_SIZES.
Proof.
  unfold success_log. rewrite !List.filter_app.
  rewrite (flat_map_png_events_calls _ PNG_SIZES_names).
  cbn [List.filter is_svg2png app]. by rewrite app_nil_r.
Qed.

(** C4. The table has nine entries with distinct names, for the sizes
    16 to 512.  A call of [svg_to_png] for an entry invokes the
    rasterizer once, on the source, for the entry's file in the output
    directory and with the entry's size as width and as height.  A run
    that gets to the end has made exactly these nine calls, in the order
    of the table, and every entry's file holds what the rasterizer
    produced for it. *)
Theorem table_rasterized :
  (PNG_SIZES.*1 =
     ["favicon-16x16.png"; "favicon-32x32.png"; "favicon-48x48.png";
      "favicon-64x64.png"; "favicon-96x96.png"; "favicon-128x128.png";
      "apple-touch-icon.png"; "android-chrome-192x192.png";
      "android-chrome-512x512.png"] ∧
   PNG_SIZES.*2 = [16; 32; 48; 64; 96; 128; 180; 192; 512]%Z ∧
   length PNG_SIZES = 9 ∧
   NoDup PNG_SIZES.*1) ∧
  (∀ (f : string) (size : Z) (w : World),
     (f, size) ∈ PNG_SIZES →
     List.filter is_svg2png
       (log (svg_to_png svg2png_render SVG (DIR // f) size w)) =
       [EvSvg2Png SVG (DIR ++ [f]) size size]) ∧
  (∀ w : World,
     res (script' w) = Ret tt →
     List.filter is_svg2png (log (script' w)) =
       map (λ entry, EvSvg2Png SVG (DIR ++ [entry.1]) entry.2 entry.2)
         PNG_SIZES ∧
     ∃ svg, fs w !! SVG = Some (File svg) ∧
       ∀ (f : string) (size : Z), (f, size) ∈ PNG_SIZES →
         ∃ png, svg2png_render svg size size = Some png ∧
                fs (world (script' w)) !! (DIR ++ [f]) = Some (File png)).
Proof.
  split; [|split].
  - split; [done|]. split; [done|]. split; [done|]. apply PNG_SIZES_NoDup.
  - intros f size w Hin. destruct (PNG_SIZES_output f size Hin) as [Hf _].
    by rewrite svg_to_png_log, (output_target f Hf).
  - intros w Hres.
    destruct (script_success w Hres) as (fs1 & svg & ico & Hcond & Hrun).
    rewrite Hrun. cbn [log world fs set_fs]. split; [apply success_log_calls|].
    destruct Hcond as (_ & _ & Hmk & Hready & _).
    exists svg. split.
    + apply pathlib_mkdir_post in Hmk. destruct Hready as (Hsvg & _).
      rewrite SVG_PATH_eq, <- (mkdir_post_below _ _ _ _ Hmk).
      by rewrite <- SVG_PATH_eq.
    + intros f size Hin. exists (rendered' svg size). split.
      * by eapply raster_ready_rendered.
      * by apply success_fs_PNG.
Qed.

(** *** Determinism *)

Lemma success_conditions_rerun (w : World) (fs1 : FS) (svg ico : list byte) :
  success_conditions' w fs1 svg ico →
  success_conditions' (set_fs w (success_fs' fs1 svg ico))
    (success_fs' fs1 svg ico) svg ico.
Proof.
  intros (Hc & Hp & Hmk & Hready & Hid & Henc & Hico).
  pose proof Hready as (Hsvg & Hdir & Hall).
  split; [done|]. split; [done|]. split; [|split; [|split; [|split]]];
    try done.
  - cbn [fs set_fs]. apply pathlib_mkdir_exists.
    by rewrite success_fs_DIR.
  - split; [by rewrite success_fs_SVG|]. split; [by rewrite success_fs_DIR|].
    rewrite Forall_forall. intros [f size] Hin. cbn [fst snd].
    rewrite Forall_forall in Hall. destruct (Hall _ Hin) as [Hr _].
    split; [done|].
    destruct (PNG_SIZES_output f size Hin) as [Hf _].
    rewrite (output_target f Hf), (success_fs_PNG _ _ _ _ _ Hready Hin).
    done.
  - unfold success_fs. by rewrite lookup_insert_eq.
Qed.

(** C8. The PNG of an entry is the rasterizer's output for the bytes of
    the source and the entry's size, whatever else is on the disk: two
    runs that get to the end from the same source bytes leave the same
    PNGs.  The run does not change the source, and a second run right
    after the first does and leaves exactly what the first did. *)
Theorem png_deterministic (w1 w2 : World) (svg : list byte) :
  fs w1 !! SVG = Some (File svg) →
  fs w2 !! SVG = Some (File svg) →
  res (script' w1) = Ret tt →
  res (script' w2) = Ret tt →
  (∀ (f : string) (size : Z), (f, size) ∈ PNG_SIZES →
     svg2png_render svg size size = Some (rendered' svg size) ∧
     fs (world (script' w1)) !! (DIR ++ [f]) =
       Some (File (rendered' svg size)) ∧
     fs (world (script' w2)) !! (DIR ++ [f]) =
       Some (File (rendered' svg size))) ∧
  fs (world (script' w1)) !! SVG = Some (File svg) ∧
  script' (world (script' w1)) =
    Result (Ret tt) (world (script' w1)) (log (script' w1)).
Proof.
  intros Hsvg1 Hsvg2 Hres1 Hres2.
  destruct (script_success w1 Hres1) as (fs1 & svg1 & ico1 & Hcond1 & Hrun1).
  destruct (script_success w2 Hres2) as (fs2 & svg2 & ico2 & Hcond2 & Hrun2).
  pose proof Hcond1 as (_ & _ & Hmk1 & Hready1 & _).
  pose proof Hcond2 as (_ & _ & Hmk2 & Hready2 & _).
  assert (∀ (w : World) (fs' : FS) (s s' : list byte),
            fs w !! SVG = Some (File s) →
            pathlib_mkdir DIR true true (fs w) = inr fs' →
            raster_ready' s' PNG_SIZES fs' → s' = s) as Hsame.
  { intros w fs' s s' Hs Hmk (Hs' & _). apply pathlib_mkdir_post in Hmk.
    rewrite SVG_PATH_eq, <- (mkdir_post_below _ _ _ _ Hmk) in Hs.
    rewrite <- SVG_PATH_eq, Hs' in Hs. by injection Hs. }
  assert (svg1 = svg) as -> by apply (Hsame w1 fs1 _ _ Hsvg1 Hmk1 Hready1).
  assert (svg2 = svg) as -> by apply (Hsame w2 fs2 _ _ Hsvg2 Hmk2 Hready2).
  rewrite Hrun1, Hrun2. cbn [world log fs set_fs]. split; [|split].
  - intros f size Hin. split; [by eapply raster_ready_rendered|].
    split; by apply success_fs_PNG.
  - rewrite success_fs_SVG. by destruct Hready1.
  - rewrite (script_ok _ _ _ _ (success_conditions_rerun _ _ _ _ Hcond1)).
    by rewrite set_fs_set_fs, success_fs_idemp.
Qed.

(** *** A failing rasterizer *)

Lemma png_events_no_save (l : list (string * Z)) :
  List.filter is_save (flat_map (png_events script_file) l) = [].
Proof.
  induction l as [|entry l IH]; [done|].
  cbn [flat_map]. by rewrite List.filter_app, IH.
Qed.

(** C7. When the rasterizer fails on an entry of the table, the
    exception ends the run: the entries before it hold their PNGs, the
    files of the failing entry and of the entries after it and
    [favicon.ico] are what they were before the run, the rasterizer has
    been called for the entries up to the failing one and no further,
    and no [save] has been attempted. *)
Theorem rasterizer_failure_aborts (w : World) (fs1 : FS) (svg : list byte)
    (pre post : list (string * Z)) (f : string) (size : Z) :
  "cairosvg" ∈ modules w →
  "PIL" ∈ modules w →
  pathlib_mkdir DIR true true (fs w) = inr fs1 →
  fs w !! SVG = Some (File svg) →
  PNG_SIZES = pre ++ (f, size) :: post →
  Forall (λ entry : string * Z,
            is_Some (svg2png_render svg entry.2 entry.2) ∧
            fs w !! (DIR ++ [entry.1]) ≠ Some Dir) pre →
  svg2png_render svg size size = None →
  res (script' w) = Raise RenderError ∧
  exit_code (res (script' w)) = 1%Z ∧
  (∀ (f' : string) (s' : Z), (f', s') ∈ pre →
     fs (world (script' w)) !! (DIR ++ [f']) =
       Some (File (rendered' svg s'))) ∧
  (∀ (f' : string) (s' : Z), (f', s') ∈ (f, size) :: post →
     fs (world (script' w)) !! (DIR ++ [f']) = fs w !! (DIR ++ [f'])) ∧
  fs (world (script' w)) !! ICO = fs w !! ICO ∧
  List.filter is_svg2png (log (script' w)) =
    map (λ entry, EvSvg2Png SVG (DIR ++ [entry.1]) entry.2 entry.2)
      (pre ++ [(f, size)]) ∧
  List.filter is_save (log (script' w)) = [].
Proof.
  intros Hc Hp Hmk Hsvg Hsplit Hpre Hfail.
  pose proof PNG_SIZES_names as Hnames. rewrite Hsplit in Hnames.
  apply Forall_app in Hnames as [Hnames_pre Hnames_post].
  apply Forall_cons in Hnames_post as [Hf Hnames_post]. cbn [fst] in Hf.
  pose proof PNG_SIZES_NoDup as Hnd.
  rewrite Hsplit, fmap_app, fmap_cons in Hnd. cbn [fst] in Hnd.
  apply NoDup_app in Hnd as (Hnd_pre & Hdisj & Hnd_post).
  pose proof (pathlib_mkdir_post _ _ _ _ _ Hmk) as Hpost.
  assert (∀ x : string, fs1 !! (DIR ++ [x]) = fs w !! (DIR ++ [x])) as Hbelow
    by (intros x; by apply mkdir_post_below).
  assert (raster_ready' svg pre fs1) as Hready.
  { split; [by rewrite SVG_PATH_eq, Hbelow, <- SVG_PATH_eq|].
    split; [by destruct Hpost|].
    rewrite Forall_forall in Hpre, Hnames_pre. rewrite Forall_forall.
    intros [f' s'] Hin. destruct (Hpre _ Hin) as [Hr Ht].
    split; [done|]. cbn [fst snd] in *.
    by rewrite (output_target f' (Hnames_pre _ Hin)), Hbelow. }
  assert (script' w =
            Result (Raise RenderError) (set_fs w (written' svg pre fs1))
              ([EvImport "cairosvg"; EvImport "PIL"; EvMkdir DIR;
                EvExists SVG;
                EvPrint ("Using SVG source: " +:+ Path.str SVG);
                EvPrint ("Output directory: " +:+ Path.str DIR);
                EvPrint ""] ++
               flat_map (png_events script_file) (pre ++ [(f, size)])))
    as Hrun.
  { rewrite script_run, (bool_decide_eq_true_2 _ Hc),
      (bool_decide_eq_true_2 _ Hp), Hmk, main_run.
    unfold OS.exists_. rewrite fs_set_fs.
    pose proof Hready as (Hsvg1 & _). rewrite Hsvg1.
    rewrite bind_run, Hsplit.
    assert (raster_ready' svg pre (fs (set_fs w fs1))) as Hready'
      by exact Hready.
    rewrite (png_loop_fail svg pre post f size (set_fs w fs1)
               Hnames_pre Hready' Hfail).
    by cbn [prepend res world log fs set_fs app]. }
  rewrite Hrun. cbn [res world log fs set_fs exit_code].
  split; [done|]. split; [done|]. split; [|split; [|split; [|split]]].
  - intros f' s' Hin. pose proof Hnames_pre as Hn.
    rewrite Forall_forall in Hn.
    rewrite <- (output_target f' (Hn _ Hin)).
    apply (written_entry svg pre fs1 f' s'); try done.
    by eapply raster_ready_rendered.
  - intros f' s' Hin. rewrite <- Hbelow.
    assert (output_name f') as Hf'.
    { apply elem_of_cons in Hin as [[= -> ->]|Hin]; [done|].
      rewrite Forall_forall in Hnames_post. apply (Hnames_post _ Hin). }
    rewrite <- (output_target f' Hf'). apply written_other.
    intros f2 s2 Hin2 Heq. rewrite Forall_forall in Hnames_pre.
    rewrite (output_target f' Hf'),
      (output_target f2 (Hnames_pre _ Hin2)) in Heq.
    apply app_inv_head in Heq. injection Heq as ->.
    apply (Hdisj f2).
    + apply list_elem_of_fmap. by exists (f2, s2).
    + change (f2 ∈ ((f, size) :: post).*1).
      apply list_elem_of_fmap. by exists (f2, s').
  - rewrite ICO_eq, <- Hbelow, <- ICO_eq. apply written_other.
    intros f2 s2 Hin2.
    assert ((f2, s2) ∈ PNG_SIZES) as Hin
      by (rewrite Hsplit; apply elem_of_app; by left).
    destruct (PNG_SIZES_output f2 s2 Hin) as [Hf2 Hne].
    rewrite ICO_eq, (output_target f2 Hf2). apply snoc_inj_ne. congruence.
  - cbn [app List.filter is_svg2png]. apply flat_map_png_events_calls.
    apply Forall_app. split; [done|]. apply Forall_cons. split; [done|constructor].
  - cbn [app List.filter is_save]. apply png_events_no_save.
Qed.

(** *** The ICO assembly, case by case *)

Lemma probe_events_probes (fs0 : FS) (sizes : list Z) :
  Forall (λ e, is_exists e || is_open e = true) (probe_events' fs0 sizes).
Proof.
  induction sizes as [|size sizes IH]; [constructor|].
  cbn [probe_events flat_map].
  destruct (OS.exists_ (ico_png_path script_file size) fs0);
    cbn [app]; by repeat (apply Forall_cons; split; [done|]).
Qed.

Lemma probes_no_save (l : list event) :
  Forall (λ e, is_exists e || is_open e = true) l →
  List.filter is_save l = [] ∧ stdout l = [].
Proof.
  induction 1 as [|e l He _ [IH1 IH2]]; [done|].
  destruct e; try done; cbn [List.filter is_save]; by rewrite ?IH1.
Qed.

Lemma stdout_app (l1 l2 : list event) :
  stdout (l1 ++ l2) = stdout l1 ++ stdout l2.
Proof. unfold stdout. apply omap_app. Qed.

Lemma probes_not_save (l : list event) (e : event) :
  Forall (λ e, is_exists e || is_open e = true) l →
  e ∈ l → is_save e = false.
Proof.
  intros Hl Hin. rewrite Forall_forall in Hl. specialize (Hl _ Hin).
  by destruct e.
Qed.

Lemma candidate_some (fs0 : FS) (sizes : list Z) (size : Z) :
  loadable' fs0 sizes → size ∈ sizes →
  is_Some (fs0 !! ico_png_path script_file size) →
  omap (candidate' fs0) sizes ≠ [].
Proof.
  intros Hl Hin [n Hn] Hnil. unfold loadable in Hl.
  rewrite Forall_forall in Hl. destruct (Hl _ Hin n Hn) as (d & -> & _).
  assert (mkImage (ico_png_path script_file size) d
            ∈ omap (candidate' fs0) sizes) as Himg.
  { apply list_elem_of_omap. exists size. split; [done|].
    unfold candidate. by rewrite Hn. }
  rewrite Hnil in Himg. by apply elem_of_nil in Himg.
Qed.

Lemma candidate_none (fs0 : FS) (sizes : list Z) :
  (∀ size, size ∈ sizes → fs0 !! ico_png_path script_file size = None) →
  omap (candidate' fs0) sizes = [] ∧ loadable' fs0 sizes ∧
  probe_events' fs0 sizes = EvExists <$> (ico_png_path script_file <$> sizes).
Proof.
  induction sizes as [|size sizes IH]; intros Hnone;
    [split; [done|split; [constructor|done]]|].
  destruct IH as (IH1 & IH2 & IH3).
  { intros s Hs. apply Hnone. by right. }
  assert (fs0 !! ico_png_path script_file size = None) as Hsize
    by (apply Hnone; by left).
  split; [|split].
  - cbn [omap list_omap]. unfold candidate at 1. by rewrite Hsize.
  - apply Forall_cons. split; [|done]. intros n Hn. congruence.
  - cbn [probe_events flat_map]. unfold OS.exists_. rewrite Hsize.
    cbn [app fmap list_fmap]. f_equal. exact IH3.
Qed.

(** C5. When at least one of the three candidates exists (and what
    exists can be loaded), [create_ico] makes one [save]: of the first
    loaded image, to [favicon.ico], as ICO, with the size hints 16, 32
    and 48 and the other loaded images appended; when the encoder
    accepts them and the target can be opened, [favicon.ico] then holds
    the encoder's bytes.  When none of the three exists, it prints the
    warning, attempts no [save] and leaves the file system, so also an
    existing [favicon.ico], as it was. *)
Theorem ico_assembly (arg : list (string * Z)) (w : World) :
  ((∃ size, size ∈ [16; 32; 48]%Z ∧
            is_Some (fs w !! ico_png_path script_file size)) →
   loadable' (fs w) [16; 32; 48]%Z →
   ∃ im0 rest,
     omap (candidate' (fs w)) [16; 32; 48]%Z = im0 :: rest ∧
     List.filter is_save (log (create_ico' arg w)) =
       [EvSave im0 ICO "ICO" [(16, 16); (32, 32); (48, 48)]%Z rest] ∧
     ∀ ico, ico_encode im0 [(16, 16); (32, 32); (48, 48)]%Z rest = Some ico →
            fs w !! DIR = Some Dir →
            fs w !! ICO ≠ Some Dir →
            res (create_ico' arg w) = Ret tt ∧
            fs (world (create_ico' arg w)) = <[ICO := File ico]> (fs w) ∧
            stdout (log (create_ico' arg w)) =
              ["Generating favicon.ico..."; "Created favicon.ico"]) ∧
  ((∀ size, size ∈ [16; 32; 48]%Z →
            fs w !! ico_png_path script_file size = None) →
   res (create_ico' arg w) = Ret tt ∧
   world (create_ico' arg w) = w ∧
   stdout (log (create_ico' arg w)) =
     ["Generating favicon.ico...";
      "Warning: Could not create ICO file - missing required PNG sizes"] ∧
   List.filter is_save (log (create_ico' arg w)) = []).
Proof.
  split.
  - intros (size & Hin & Hsome) Hl.
    destruct (omap (candidate' (fs w)) [16; 32; 48]%Z) as [|im0 rest] eqn:Hc;
      [by destruct (candidate_some _ _ _ Hl Hin Hsome)|].
    exists im0, rest. split; [done|].
    rewrite (create_ico_some arg w im0 rest Hc Hl).
    destruct (probes_no_save _ (probe_events_probes (fs w) [16; 32; 48]%Z))
      as [Hns Hno].
    split.
    + cbn [prepend log]. rewrite !List.filter_app, Hns.
      cbn [List.filter is_save app].
      destruct (OS.open_wb ICO (fs w)) as [e|fs1]; [done|].
      by destruct (ico_encode im0 ico_sizes rest).
    + intros ico Henc Hdir Hico. unfold OS.open_wb.
      replace (Path.parent ICO) with DIR by (by rewrite ICO_eq, parent_snoc).
      rewrite Hdir. fold ico_sizes in Henc. rewrite Henc.
      destruct (fs w !! ICO) as [[|d]|]; [done|..];
        cbn [prepend res world log fs set_fs]; rewrite !stdout_app, Hno;
        by repeat split.
  - intros Hnone. destruct (candidate_none (fs w) _ Hnone) as (Hc & Hl & Hp).
    rewrite (create_ico_none arg w Hc Hl), Hp. by repeat split.
Qed.

(** *** What the ICO assembly depends on *)

Lemma load_images_local (sizes : list Z) (images : list Image)
    (w1 w2 : World) :
  (∀ size, size ∈ sizes →
     fs w1 !! ico_png_path script_file size =
     fs w2 !! ico_png_path script_file size) →
  res (load_images' sizes images w1) = res (load_images' sizes images w2) ∧
  log (load_images' sizes images w1) = log (load_images' sizes images w2).
Proof.
  revert images. induction sizes as [|size sizes IH]; intros images Hsame;
    [done|].
  assert (fs w1 !! ico_png_path script_file size =
          fs w2 !! ico_png_path script_file size) as Hsize
    by (apply Hsame; by left).
  assert (∀ imgs,
            res (load_images' sizes imgs w1) = res (load_images' sizes imgs w2) ∧
            log (load_images' sizes imgs w1) = log (load_images' sizes imgs w2))
    as IH' by (intros imgs; apply IH; intros s Hs; apply Hsame; by right).
  cbn [load_images]. rewrite !bind_run, !Path_exists_run.
  cbn [res world log]. unfold OS.exists_. rewrite Hsize.
  destruct (fs w2 !! ico_png_path script_file size) as [n|] eqn:Hn.
  - rewrite !bind_run, !Image_open_run. unfold OS.read. rewrite Hsize, Hn.
    destruct n as [|d]; [done|]. destruct (pil_identify d); [|done].
    cbn [prepend res world log].
    by destruct (IH' (images ++ [mkImage (ico_png_path script_file size) d]))
      as [-> ->].
  - cbn [prepend res world log]. by destruct (IH' images) as [-> ->].
Qed.

(** C9. [create_ico] never reads its argument: on the same world it
    does the same for any two arguments; and on two worlds that agree on
    the three candidate PNGs and on the state of [favicon.ico] and of its
    directory, it ends the same way, logs the same events and leaves the
    same [favicon.ico], whatever the arguments. *)
Theorem create_ico_ignores_argument (a b : list (string * Z)) :
  (∀ w : World, create_ico' a w = create_ico' b w) ∧
  (∀ w1 w2 : World,
     (∀ size, size ∈ [16; 32; 48]%Z →
        fs w1 !! ico_png_path script_file size =
        fs w2 !! ico_png_path script_file size) →
     fs w1 !! ICO = fs w2 !! ICO →
     fs w1 !! DIR = fs w2 !! DIR →
     res (create_ico' a w1) = res (create_ico' b w2) ∧
     log (create_ico' a w1) = log (create_ico' b w2) ∧
     fs (world (create_ico' a w1)) !! ICO =
       fs (world (create_ico' b w2)) !! ICO).
Proof.
  split; [done|]. intros w1 w2 Hpng Hico Hdir.
  rewrite !create_ico_run, !bind_run.
  destruct (load_images_local [16; 32; 48]%Z [] w1 w2 Hpng) as [Hres Hlog].
  destruct (load_images_frame [16; 32; 48]%Z [] w1) as [Hw1 _].
  destruct (load_images_frame [16; 32; 48]%Z [] w2) as [Hw2 _].
  rewrite Hres, Hlog, Hw1, Hw2.
  destruct (res (load_images' [16; 32; 48]%Z [] w2)) as [[|im0 rest]|c|e];
    cbn [prepend res world log print emit]; [done| |done..].
  rewrite !bind_run, !Image_save_run. unfold OS.open_wb, OS.exists_.
  replace (Path.parent ICO) with DIR by (by rewrite ICO_eq, parent_snoc).
  rewrite Hico, Hdir.
  destruct (fs w2 !! ICO) as [[|d]|] eqn:Hico2;
    destruct (fs w2 !! DIR) as [[|d']|] eqn:Hdir2;
    try destruct (ico_encode im0 ico_sizes rest);
    cbn [prepend res world log print emit fs set_fs];
    rewrite ?lookup_insert_eq;
    (split; [done|split; [done|congruence]]).
Qed.

(** *** The order of the probes *)

(** A [save] in the log of [create_ico] is the one of the images it
    loaded, and they all loaded. *)
Lemma create_ico_save_inv (arg : list (string * Z)) (w : World)
    (im : Image) (fp : path) (format : string) (sizes : list (Z * Z))
    (rest : list Image) :
  EvSave im fp format sizes rest ∈ log (create_ico' arg w) →
  loadable' (fs w) [16; 32; 48]%Z ∧
  omap (candidate' (fs w)) [16; 32; 48]%Z = im :: rest ∧
  fp = ICO ∧ format = "ICO" ∧ sizes = ico_sizes ∧
  ∃ tail, log (create_ico' arg w) =
            [EvPrint "Generating favicon.ico..."] ++
            probe_events' (fs w) [16; 32; 48]%Z ++
            EvSave im fp format sizes rest :: tail.
Proof.
  intros Hin.
  destruct (res (load_images' [16; 32; 48]%Z [] w)) as [imgs|c|e] eqn:Hload.
  - pose proof (load_images_inv _ _ _ _ Hload) as Hl.
    pose proof (probe_events_probes (fs w) [16; 32; 48]%Z) as Hprobes.
    destruct (omap (candidate' (fs w)) [16; 32; 48]%Z) as [|im0 rest0] eqn:Hc.
    + rewrite (create_ico_none arg w Hc Hl) in Hin. cbn [log] in Hin.
      rewrite !elem_of_app, !list_elem_of_singleton in Hin.
      destruct Hin as [Hin|[Hin|Hin]]; [done| |done].
      by pose proof (probes_not_save _ _ Hprobes Hin).
    + rewrite (create_ico_some arg w im0 rest0 Hc Hl) in Hin |- *.
      cbn [prepend log] in Hin |- *.
      assert (EvSave im fp format sizes rest
                = EvSave im0 ICO "ICO" ico_sizes rest0) as Heq.
      { rewrite !elem_of_app, !list_elem_of_singleton in Hin.
        destruct Hin as [[Hin|[Hin|Hin]]|Hin]; [done| |done|].
        - by pose proof (probes_not_save _ _ Hprobes Hin).
        - destruct (OS.open_wb ICO (fs w)) as [e|fs1];
            [by apply elem_of_nil in Hin|].
          destruct (ico_encode im0 ico_sizes rest0);
            [|by apply elem_of_nil in Hin].
          by apply list_elem_of_singleton in Hin. }
      injection Heq as -> -> -> -> ->.
      do 5 (split; [done|]). eexists. by rewrite <- !app_assoc.
  - exfalso. rewrite create_ico_run, bind_run, Hload in Hin.
    cbn [prepend log] in Hin.
    rewrite elem_of_app, list_elem_of_singleton in Hin.
    destruct Hin as [Hin|Hin]; [done|].
    destruct (load_images_frame [16; 32; 48]%Z [] w) as [_ Hprobes].
    by pose proof (probes_not_save _ _ Hprobes Hin).
  - exfalso. rewrite create_ico_run, bind_run, Hload in Hin.
    cbn [prepend log] in Hin.
    rewrite elem_of_app, list_elem_of_singleton in Hin.
    destruct Hin as [Hin|Hin]; [done|].
    destruct (load_images_frame [16; 32; 48]%Z [] w) as [_ Hprobes].
    by pose proof (probes_not_save _ _ Hprobes Hin).
Qed.

(** C10. Whenever [create_ico] saves [favicon.ico], it has before that
    probed the candidates for 16, 32 and 48 pixels in this order and
    opened each one that exists right after its probe; the image saved
    first is the one of the smallest size that exists, the appended
    ones follow in ascending size, and the size hints are the full list
    16, 32, 48 however many images were loaded. *)
Theorem ico_probe_order (arg : list (string * Z)) (w : World)
    (im : Image) (fp : path) (format : string) (sizes : list (Z * Z))
    (rest : list Image) :
  EvSave im fp format sizes rest ∈ log (create_ico' arg w) →
  (∃ tail, log (create_ico' arg w) =
             [EvPrint "Generating favicon.ico..."] ++
             probe_events' (fs w) [16; 32; 48]%Z ++
             EvSave im fp format sizes rest :: tail) ∧
  List.filter is_exists (log (create_ico' arg w)) =
    [EvExists (ico_png_path script_file 16);
     EvExists (ico_png_path script_file 32);
     EvExists (ico_png_path script_file 48)] ∧
  List.filter is_open (log (create_ico' arg w)) =
    EvOpen <$> (filename <$> im :: rest) ∧
  im :: rest = omap (candidate' (fs w)) [16; 32; 48]%Z ∧
  fp = ICO ∧ format = "ICO" ∧
  sizes = [(16, 16); (32, 32); (48, 48)]%Z ∧
  ∃ s0, s0 ∈ [16; 32; 48]%Z ∧
        filename im = ico_png_path script_file s0 ∧
        is_Some (fs w !! ico_png_path script_file s0) ∧
        ∀ s, s ∈ [16; 32; 48]%Z →
             is_Some (fs w !! ico_png_path script_file s) → (s0 ≤ s)%Z.
Proof.
  intros Hin.
  destruct (create_ico_save_inv _ _ _ _ _ _ _ Hin)
    as (Hl & Hc & -> & -> & -> & tail & Hlog).
  assert (Forall (λ e, is_exists e = false ∧ is_open e = false) tail) as Htail.
  { revert Hlog. rewrite (create_ico_some arg w im rest Hc Hl).
    cbn [prepend log]. rewrite <- !app_assoc. intros Heq.
    do 2 apply app_inv_head in Heq. injection Heq as <-.
    destruct (OS.open_wb ICO (fs w)) as [e|fs1]; [constructor|].
    destruct (ico_encode im ico_sizes rest); by repeat constructor. }
  assert (List.filter is_exists tail = [] ∧ List.filter is_open tail = [])
    as [Ht1 Ht2].
  { clear -Htail. induction Htail as [|e l [He1 He2] _ [IH1 IH2]]; [done|].
    cbn [List.filter]. by rewrite He1, He2. }
  split; [by exists tail|]. rewrite Hlog, !List.filter_app.
  cbn [List.filter is_exists is_open app]. rewrite Ht1, Ht2.
  unfold loadable in Hl. rewrite !Forall_cons in Hl.
  destruct Hl as (H16 & H32 & H48 & _).
  revert Hc. cbn [omap list_omap probe_events flat_map].
  unfold candidate, OS.exists_.
  assert (∀ a b c : Z, a ∈ [a; b; c]) as E1 by (intros; by left).
  assert (∀ a b c : Z, b ∈ [a; b; c]) as E2 by (intros; right; by left).
  assert (∀ a b c : Z, c ∈ [a; b; c]) as E3
    by (intros; right; right; by left).
  destruct (fs w !! ico_png_path script_file 16) as [n16|] eqn:L16;
    [destruct (H16 _ eq_refl) as (d16 & -> & _)|];
    (destruct (fs w !! ico_png_path script_file 32) as [n32|] eqn:L32;
     [destruct (H32 _ eq_refl) as (d32 & -> & _)|]);
    (destruct (fs w !! ico_png_path script_file 48) as [n48|] eqn:L48;
     [destruct (H48 _ eq_refl) as (d48 & -> & _)|]);
    intros Hc; try discriminate Hc; injection Hc as <- <-;
    cbn [app List.filter is_exists is_open fmap list_fmap filename];
    (split; [done|]); (split; [done|]); (split; [done|]);
    (split; [done|]); (split; [done|]); (split; [done|]).
  all: first
    [ exists 16%Z; split; [apply E1|]; split; [done|];
      split; [by rewrite L16|]
    | exists 32%Z; split; [apply E2|]; split; [done|];
      split; [by rewrite L32|]
    | exists 48%Z; split; [apply E3|]; split; [done|];
      split; [by rewrite L48|] ].
  all: refine (proj1 (Forall_forall _ _) _);
    repeat (apply Forall_cons; split); try apply Forall_nil;
    rewrite ?L16, ?L32, ?L48; try done; intros [? ?]; (done || lia).
Qed.

End Verification.

(** ** Where the script looks for the source *)

(** C2, at the place of the script in the repository.  Run as
    [<repo>/packages/react-ui/scripts/generate-favicons.py], the script
    takes [<repo>/packages/react-ui] for the project root, one [parent]
    above the script directory, and so looks for the source below
    [<repo>/packages/react-ui/packages/react-ui/public/favicons], not in
    [<repo>/packages/react-ui/public/favicons].  The outputs do go into
    the directory of the source it resolved. *)
Theorem svg_path_resolution (repo : path) :
  let script_file :=
    repo ++ ["packages"; "react-ui"; "scripts"; "generate-favicons.py"] in
  PROJECT_ROOT script_file = repo ++ ["packages"; "react-ui"] ∧
  SVG_PATH script_file =
    repo ++ ["packages"; "react-ui"; "packages"; "react-ui"; "public";
             "favicons"; "favicon.svg"] ∧
  SVG_PATH script_file ≠
    repo ++ ["packages"; "react-ui"; "public"; "favicons"; "favicon.svg"] ∧
  FAVICON_DIR script_file = Path.parent (SVG_PATH script_file) ∧
  (∀ (f : string) (size : Z), (f, size) ∈ PNG_SIZES →
     Path.parent (FAVICON_DIR script_file // f) = FAVICON_DIR script_file) ∧
  Path.parent (FAVICON_DIR script_file // "favicon.ico") =
    FAVICON_DIR script_file.
Proof.
  intros script_file.
  assert (PROJECT_ROOT script_file = repo ++ ["packages"; "react-ui"]) as Hroot.
  { unfold PROJECT_ROOT, SCRIPT_DIR, script_file.
    change (repo ++ ["packages"; "react-ui"; "scripts"; "generate-favicons.py"])
      with (repo ++ ["packages"; "react-ui"] ++ ["scripts"]
                 ++ ["generate-favicons.py"]).
    by rewrite !app_assoc, !parent_snoc. }
  assert (SVG_PATH script_file =
            repo ++ ["packages"; "react-ui"; "packages"; "react-ui"; "public";
                     "favicons"; "favicon.svg"]) as Hsvg.
  { rewrite SVG_PATH_eq, FAVICON_DIR_eq, Hroot. by rewrite <- !app_assoc. }
  split; [done|]. split; [done|]. split; [|split; [|split]].
  - rewrite Hsvg. intros Heq. apply app_inv_head in Heq. discriminate Heq.
  - rewrite (SVG_PATH_eq script_file). symmetry. apply parent_snoc.
  - intros f size Hin. apply output_target_parent.
    exact (proj1 (PNG_SIZES_output f size Hin)).
  - rewrite (ICO_eq script_file). apply parent_snoc.
Qed.
(** ** The script on the concrete installation *)

Section Concrete.

Import Example.

Local Abbreviation SVG := (SVG_PATH script_file).
Local Abbreviation DIR := (FAVICON_DIR script_file).

Lemma example_paths :
  DIR = favicons ∧ SVG = favicons ++ ["favicon.svg"].
Proof. split; vm_compute; reflexivity. Defined.

Lemma bare_log :
  log (run 512 bare) =
    [EvImport "cairosvg"; EvImport "PIL"; EvMkdir favicons;
     EvExists (favicons ++ ["favicon.svg"]);
     EvPrint "Error: SVG source not found at /repo/packages/react-ui/packages/react-ui/public/favicons/favicon.svg"].
Proof. vm_compute. reflexivity. Defined.

End Concrete.

(** C3 as the specification has it fails: with both libraries there and
    neither the source nor the output directory, the run creates the
    directory, then looks for the source, and exits with status 1; in its
    log no existence check comes before the [mkdir]. *)
Lemma mkdir_precedes_svg_check :
  fs Example.bare !! Example.favicons = None ∧
  fs Example.bare !! (Example.favicons ++ ["favicon.svg"]) = None ∧
  res (Example.run 512 Example.bare) = Exit 1 ∧
  fs (world (Example.run 512 Example.bare)) !! Example.favicons = Some Dir ∧
  ¬ checks_before_mkdir (log (Example.run 512 Example.bare)).
Proof.
  split; [vm_compute; reflexivity|]. split; [vm_compute; reflexivity|].
  split; [vm_compute; reflexivity|]. split; [vm_compute; reflexivity|].
  intros Hclaim. rewrite bare_log in Hclaim.
  destruct (Hclaim [EvImport "cairosvg"; EvImport "PIL"] Example.favicons
              [EvExists (Example.favicons ++ ["favicon.svg"]);
               EvPrint "Error: SVG source not found at /repo/packages/react-ui/packages/react-ui/public/favicons/favicon.svg"]
              eq_refl) as [q Hq].
  rewrite !elem_of_cons, elem_of_nil in Hq.
  destruct Hq as [Hq|[Hq|Hq]]; [discriminate Hq|discriminate Hq|done].
Qed.

(** [svg_missing_exits] on the bare checkout. *)
Lemma svg_missing_exits_witness :
  fs Example.bare !! SVG_PATH Example.script_file = None ∧
  res (Example.run 512 Example.bare) = Exit 1 ∧
  last (stdout (log (Example.run 512 Example.bare))) =
    Some ("Error: SVG source not found at "
          +:+ Path.str (SVG_PATH Example.script_file)).
Proof.
  assert (fs Example.bare !! SVG_PATH Example.script_file = None) as Hsvg
    by (vm_compute; reflexivity).
  split; [exact Hsvg|].
  apply (svg_missing_exits (Example.render 512) Example.identify
           Example.encode Example.script_file Example.bare Hsvg).
  - vm_decide.
  - vm_decide.
  - intros e. vm_compute. intros H. discriminate H.
Defined.

(** [steps_in_order]: a full run from the source alone, and the run on
    the bare checkout, where the check is reached. *)
Lemma steps_in_order_witness :
  res (Example.run 512 Example.with_svg) = Ret tt ∧
  (∃ svg, fs Example.with_svg !! SVG_PATH Example.script_file
            = Some (File svg) ∧
          log (Example.run 512 Example.with_svg) =
            success_log (Example.render 512) Example.script_file svg) ∧
  ∃ tail, log (Example.run 512 Example.bare) =
            [EvImport "cairosvg"; EvImport "PIL";
             EvMkdir (FAVICON_DIR Example.script_file);
             EvExists (SVG_PATH Example.script_file)] ++ tail.
Proof.
  assert (res (Example.run 512 Example.with_svg) = Ret tt) as Hres
    by (vm_compute; reflexivity).
  split; [exact Hres|]. split.
  - exact (proj1 (steps_in_order (Example.render 512) Example.identify
                    Example.encode Example.script_file Example.with_svg) Hres).
  - apply (proj2 (steps_in_order (Example.render 512) Example.identify
                    Example.encode Example.script_file Example.bare)).
    change (script (Example.render 512) Example.identify Example.encode
              Example.script_file Example.bare)
      with (Example.run 512 Example.bare).
    rewrite bare_log. do 3 right. left.
Defined.

(** [table_rasterized]: the first entry, and a full run. *)
Lemma table_rasterized_witness :
  ("favicon-16x16.png", 16%Z) ∈ PNG_SIZES ∧
  res (Example.run 512 Example.with_svg) = Ret tt ∧
  List.filter is_svg2png
    (log (svg_to_png (Example.render 512) (SVG_PATH Example.script_file)
            (FAVICON_DIR Example.script_file // "favicon-16x16.png") 16
            Example.bare)) =
    [EvSvg2Png (SVG_PATH Example.script_file)
       (FAVICON_DIR Example.script_file ++ ["favicon-16x16.png"]) 16 16] ∧
  List.filter is_svg2png (log (Example.run 512 Example.with_svg)) =
    map (λ entry : string * Z,
           EvSvg2Png (SVG_PATH Example.script_file)
             (FAVICON_DIR Example.script_file ++ [entry.1]) entry.2 entry.2)
      PNG_SIZES.
Proof.
  assert (("favicon-16x16.png", 16%Z) ∈ PNG_SIZES) as Hin by (by left).
  assert (res (Example.run 512 Example.with_svg) = Ret tt) as Hres
    by (vm_compute; reflexivity).
  destruct (table_rasterized (Example.render 512) Example.identify
              Example.encode Example.script_file) as (_ & Hcall & Hrun).
  split; [exact Hin|]. split; [exact Hres|]. split.
  - exact (Hcall _ _ Example.bare Hin).
  - exact (proj1 (Hrun Example.with_svg Hres)).
Defined.

(** [ico_assembly]: with the 32 and 48 pixel PNGs only, and with none. *)
Lemma ico_assembly_witness :
  (∃ size, size ∈ [16; 32; 48]%Z ∧
           is_Some (fs Example.partial !! ico_png_path Example.script_file size)) ∧
  loadable Example.identify Example.script_file (fs Example.partial)
    [16; 32; 48]%Z ∧
  (∃ im0 rest,
     omap (candidate Example.script_file (fs Example.partial)) [16; 32; 48]%Z
       = im0 :: rest ∧
     List.filter is_save
       (log (create_ico Example.identify Example.encode Example.script_file
               PNG_SIZES Example.partial)) =
       [EvSave im0 (FAVICON_DIR Example.script_file // "favicon.ico") "ICO"
          [(16, 16); (32, 32); (48, 48)]%Z rest]) ∧
  (∀ size, size ∈ [16; 32; 48]%Z →
           fs Example.with_svg !! ico_png_path Example.script_file size = None) ∧
  world (create_ico Example.identify Example.encode Example.script_file
           PNG_SIZES Example.with_svg) = Example.with_svg.
Proof.
  assert (∃ size, size ∈ [16; 32; 48]%Z ∧
            is_Some (fs Example.partial
                       !! ico_png_path Example.script_file size)) as Hsome.
  { exists 32%Z. split; [right; by left|]. vm_compute. by eexists. }
  assert (loadable Example.identify Example.script_file (fs Example.partial)
            [16; 32; 48]%Z) as Hl.
  { unfold loadable. repeat (apply Forall_cons; split); [| | |constructor].
    - intros n Hn. vm_compute in Hn. discriminate Hn.
    - intros n Hn. vm_compute in Hn. injection Hn as <-. by eexists.
    - intros n Hn. vm_compute in Hn. injection Hn as <-. by eexists. }
  assert (∀ size, size ∈ [16; 32; 48]%Z →
            fs Example.with_svg !! ico_png_path Example.script_file size
              = None) as Hnone.
  { intros size Hin.
    repeat (apply elem_of_cons in Hin as [->|Hin]);
      [vm_compute; reflexivity..|by apply elem_of_nil in Hin]. }
  destruct (ico_assembly Example.identify Example.encode Example.script_file
              PNG_SIZES Example.partial) as [Hfound _].
  destruct (ico_assembly Example.identify Example.encode Example.script_file
              PNG_SIZES Example.with_svg) as [_ Habsent].
  split; [exact Hsome|]. split; [exact Hl|]. split; [|split; [exact Hnone|]].
  - destruct (Hfound Hsome Hl) as (im0 & rest & Hc & Hsave & _).
    exists im0, rest. split; [exact Hc|exact Hsave].
  - exact (proj1 (proj2 (Habsent Hnone))).
Defined.


(** [rasterizer_failure_aborts]: a rasterizer that gives up above 100
    pixels fails on the sixth entry. *)
Lemma rasterizer_failure_aborts_witness :
  PNG_SIZES =
    [("favicon-16x16.png", 16); ("favicon-32x32.png", 32);
     ("favicon-48x48.png", 48); ("favicon-64x64.png", 64);
     ("favicon-96x96.png", 96)]%Z
    ++ ("favicon-128x128.png", 128%Z)
    :: [("apple-touch-icon.png", 180); ("android-chrome-192x192.png", 192);
        ("android-chrome-512x512.png", 512)]%Z ∧
  Example.render 100 Example.svg_bytes 128 128 = None ∧
  res (Example.run 100 Example.with_svg) = Raise RenderError ∧
  fs (world (Example.run 100 Example.with_svg))
    !! (FAVICON_DIR Example.script_file // "favicon.ico") =
    fs Example.with_svg !! (FAVICON_DIR Example.script_file // "favicon.ico") ∧
  List.filter is_save (log (Example.run 100 Example.with_svg)) = [].
Proof.
  pose (pre := [("favicon-16x16.png", 16); ("favicon-32x32.png", 32);
                ("favicon-48x48.png", 48); ("favicon-64x64.png", 64);
                ("favicon-96x96.png", 96)]%Z : list (string * Z)).
  pose (post := [("apple-touch-icon.png", 180);
                 ("android-chrome-192x192.png", 192);
                 ("android-chrome-512x512.png", 512)]%Z : list (string * Z)).
  assert (PNG_SIZES = pre ++ ("favicon-128x128.png", 128%Z) :: post) as Hsplit
    by reflexivity.
  assert (Example.render 100 Example.svg_bytes 128 128 = None) as Hfail
    by reflexivity.
  assert ("cairosvg" ∈ modules Example.with_svg) as Hc by vm_decide.
  assert ("PIL" ∈ modules Example.with_svg) as Hp by vm_decide.
  assert (pathlib_mkdir (FAVICON_DIR Example.script_file) true true
            (fs Example.with_svg) = inr (fs Example.with_svg)) as Hmk
    by (apply pathlib_mkdir_exists; vm_compute; reflexivity).
  assert (fs Example.with_svg !! SVG_PATH Example.script_file
            = Some (File Example.svg_bytes)) as Hsvg
    by (vm_compute; reflexivity).
  assert (Forall (λ entry : string * Z,
                    is_Some (Example.render 100 Example.svg_bytes
                               entry.2 entry.2) ∧
                    fs Example.with_svg
                      !! (FAVICON_DIR Example.script_file ++ [entry.1])
                      ≠ Some Dir) pre) as Hpre.
  { repeat (apply Forall_cons;
              split; [split; [eexists; reflexivity
                             |vm_compute; intros H; discriminate H]|]).
    constructor. }
  destruct (rasterizer_failure_aborts (Example.render 100) Example.identify
              Example.encode Example.script_file Example.with_svg
              (fs Example.with_svg) Example.svg_bytes pre post
              "favicon-128x128.png" 128%Z Hc Hp Hmk Hsvg Hsplit Hpre Hfail)
    as (Hres & _ & _ & _ & Hico & _ & Hsave).
  split; [exact Hsplit|]. split; [exact Hfail|]. split; [exact Hres|].
  split; [exact Hico|exact Hsave].
Defined.

(** [png_deterministic]: from a clean output directory and from one
    with leftovers. *)
Lemma png_deterministic_witness :
  fs Example.with_svg !! SVG_PATH Example.script_file
    = Some (File Example.svg_bytes) ∧
  fs Example.stale !! SVG_PATH Example.script_file
    = Some (File Example.svg_bytes) ∧
  res (Example.run 512 Example.with_svg) = Ret tt ∧
  res (Example.run 512 Example.stale) = Ret tt ∧
  (∀ (f : string) (size : Z), (f, size) ∈ PNG_SIZES →
     fs (world (Example.run 512 Example.with_svg))
       !! (FAVICON_DIR Example.script_file ++ [f]) =
     fs (world (Example.run 512 Example.stale))
       !! (FAVICON_DIR Example.script_file ++ [f])) ∧
  Example.run 512 (world (Example.run 512 Example.with_svg)) =
    Result (Ret tt) (world (Example.run 512 Example.with_svg))
      (log (Example.run 512 Example.with_svg)).
Proof.
  assert (fs Example.with_svg !! SVG_PATH Example.script_file
            = Some (File Example.svg_bytes)) as Hsvg1
    by (vm_compute; reflexivity).
  assert (fs Example.stale !! SVG_PATH Example.script_file
            = Some (File Example.svg_bytes)) as Hsvg2
    by (vm_compute; reflexivity).
  assert (res (Example.run 512 Example.with_svg) = Ret tt) as Hres1
    by (vm_compute; reflexivity).
  assert (res (Example.run 512 Example.stale) = Ret tt) as Hres2
    by (vm_compute; reflexivity).
  destruct (png_deterministic (Example.render 512) Example.identify
              Example.encode Example.script_file Example.with_svg
              Example.stale Example.svg_bytes Hsvg1 Hsvg2 Hres1 Hres2)
    as (Hpng & _ & Hrerun).
  split; [exact Hsvg1|]. split; [exact Hsvg2|]. split; [exact Hres1|].
  split; [exact Hres2|]. split; [|exact Hrerun].
  intros f size Hin. destruct (Hpng f size Hin) as (_ & H1 & H2).
  exact (eq_trans H1 (eq_sym H2)).
Defined.

(** [create_ico_ignores_argument]: two worlds that differ away from the
    candidates, with different arguments. *)
Lemma create_ico_ignores_argument_witness :
  (∀ size, size ∈ [16; 32; 48]%Z →
     fs Example.partial !! ico_png_path Example.script_file size =
     fs Example.partial_no_libs !! ico_png_path Example.script_file size) ∧
  fs Example.partial !! (FAVICON_DIR Example.script_file // "favicon.ico") =
    fs Example.partial_no_libs
      !! (FAVICON_DIR Example.script_file // "favicon.ico") ∧
  fs Example.partial !! FAVICON_DIR Example.script_file =
    fs Example.partial_no_libs !! FAVICON_DIR Example.script_file ∧
  log (create_ico Example.identify Example.encode Example.script_file
         PNG_SIZES Example.partial) =
    log (create_ico Example.identify Example.encode Example.script_file
           [] Example.partial_no_libs).
Proof.
  assert (∀ size, size ∈ [16; 32; 48]%Z →
            fs Example.partial !! ico_png_path Example.script_file size =
            fs Example.partial_no_libs
              !! ico_png_path Example.script_file size) as Hpng.
  { intros size Hin.
    repeat (apply elem_of_cons in Hin as [->|Hin]);
      [vm_compute; reflexivity..|by apply elem_of_nil in Hin]. }
  assert (fs Example.partial
            !! (FAVICON_DIR Example.script_file // "favicon.ico") =
          fs Example.partial_no_libs
            !! (FAVICON_DIR Example.script_file // "favicon.ico")) as Hico
    by (vm_compute; reflexivity).
  assert (fs Example.partial !! FAVICON_DIR Example.script_file =
          fs Example.partial_no_libs !! FAVICON_DIR Example.script_file)
    as Hdir by (vm_compute; reflexivity).
  destruct (create_ico_ignores_argument Example.identify Example.encode
              Example.script_file PNG_SIZES []) as [_ Hworlds].
  split; [exact Hpng|]. split; [exact Hico|]. split; [exact Hdir|].
  exact (proj1 (proj2 (Hworlds Example.partial Example.partial_no_libs
                         Hpng Hico Hdir))).
Defined.

(** [ico_probe_order]: with the 32 and 48 pixel PNGs only, the 32 pixel
    image is saved first. *)
Lemma ico_probe_order_witness :
  EvSave (mkImage (Example.favicons ++ ["favicon-32x32.png"]) [x20])
    (Example.favicons ++ ["favicon.ico"]) "ICO"
    [(16, 16); (32, 32); (48, 48)]%Z
    [mkImage (Example.favicons ++ ["favicon-48x48.png"]) [x30]]
    ∈ log (create_ico Example.identify Example.encode Example.script_file
             PNG_SIZES Example.partial) ∧
  List.filter is_exists
    (log (create_ico Example.identify Example.encode Example.script_file
            PNG_SIZES Example.partial)) =
    [EvExists (ico_png_path Example.script_file 16);
     EvExists (ico_png_path Example.script_file 32);
     EvExists (ico_png_path Example.script_file 48)] ∧
  List.filter is_open
    (log (create_ico Example.identify Example.encode Example.script_file
            PNG_SIZES Example.partial)) =
    [EvOpen (Example.favicons ++ ["favicon-32x32.png"]);
     EvOpen (Example.favicons ++ ["favicon-48x48.png"])].
Proof.
  assert (EvSave (mkImage (Example.favicons ++ ["favicon-32x32.png"]) [x20])
            (Example.favicons ++ ["favicon.ico"]) "ICO"
            [(16, 16); (32, 32); (48, 48)]%Z
            [mkImage (Example.favicons ++ ["favicon-48x48.png"]) [x30]]
            ∈ log (create_ico Example.identify Example.encode
                     Example.script_file PNG_SIZES Example.partial)) as Hin.
  { assert (log (create_ico Example.identify Example.encode
                   Example.script_file PNG_SIZES Example.partial) =
            [EvPrint "Generating favicon.ico...";
             EvExists (Example.favicons ++ ["favicon-16x16.png"]);
             EvExists (Example.favicons ++ ["favicon-32x32.png"]);
             EvOpen (Example.favicons ++ ["favicon-32x32.png"]);
             EvExists (Example.favicons ++ ["favicon-48x48.png"]);
             EvOpen (Example.favicons ++ ["favicon-48x48.png"]);
             EvSave (mkImage (Example.favicons ++ ["favicon-32x32.png"]) [x20])
               (Example.favicons ++ ["favicon.ico"]) "ICO"
               [(16, 16); (32, 32); (48, 48)]%Z
               [mkImage (Example.favicons ++ ["favicon-48x48.png"]) [x30]];
             EvPrint "Created favicon.ico"]) as ->
      by (vm_compute; reflexivity).
    do 6 right. left. }
  destruct (ico_probe_order Example.identify Example.encode
              Example.script_file PNG_SIZES Example.partial _ _ _ _ _ Hin)
    as (_ & Hexists & Hopen & _).
  split; [exact Hin|]. split; [exact Hexists|exact Hopen].
Defined.

(** * Beyond the specification: what every run leaves alone *)

Section Robustness.

Variable svg2png_render : list byte → Z → Z → option (list byte).
Variable pil_identify : list byte → bool.
Variable ico_encode : Image → list (Z * Z) → list Image → option (list byte).
Variable script_file : path.

Local Abbreviation SVG := (SVG_PATH script_file).
Local Abbreviation DIR := (FAVICON_DIR script_file).
Local Abbreviation ICO := (FAVICON_DIR script_file // "favicon.ico").
Local Abbreviation main' :=
  (main svg2png_render pil_identify ico_encode script_file).
Local Abbreviation script' :=
  (script svg2png_render pil_identify ico_encode script_file).
Local Abbreviation create_ico' :=
  (create_ico pil_identify ico_encode script_file).
Local Abbreviation load_images' := (load_images pil_identify script_file).

(** ** Frames *)

Lemma preserves_ret {A} (q : path) (a : A) : preserves q (ret a).
Proof. by intros w. Qed.

Lemma preserves_emit (q : path) (e : event) : preserves q (emit e).
Proof. by intros w. Qed.

Lemma preserves_bind {A B} (q : path) (m : M A) (k : A → M B) :
  preserves q m → (∀ a, preserves q (k a)) → preserves q (bind m k).
Proof.
  intros Hm Hk w. rewrite bind_run. specialize (Hm w).
  destruct (res (m w)) as [a|c|e]; cbn [prepend world]; [|done..].
  by rewrite Hk.
Qed.

Lemma preserves_svg_to_png (q svg_path png_path : path) (size : Z) :
  q ≠ png_path →
  preserves q (svg_to_png svg2png_render svg_path png_path size).
Proof.
  intros Hne w. rewrite svg_to_png_run, cairosvg_svg2png_run.
  cbn [prepend world].
  destruct (OS.read svg_path (fs w)) as [e|svg]; [done|].
  destruct (svg2png_render svg size size) as [png|]; [|done].
  destruct (OS.open_wb png_path (fs w)) as [e|fs1]; [done|].
  cbn [world fs set_fs]. by rewrite lookup_insert_ne.
Qed.

Lemma preserves_for_each {A} (q : path) (l : list A) (body : A → M unit) :
  (∀ x, x ∈ l → preserves q (body x)) → preserves q (for_each l body).
Proof.
  induction l as [|x l IH]; intros Hl; [apply preserves_ret|].
  cbn [for_each]. apply preserves_bind.
  - apply Hl. by left.
  - intros _. apply IH. intros y Hy. apply Hl. by right.
Qed.

Lemma preserves_load_images (q : path) (sizes : list Z) (images : list Image) :
  preserves q (load_images' sizes images).
Proof.
  intros w. by rewrite (proj1 (load_images_frame _ _ sizes images w)).
Qed.

Lemma preserves_Image_save (q : path) (im : Image) (fp : path)
    (format : string) (sizes : list (Z * Z)) (rest : list Image) :
  q ≠ fp → preserves q (Image_save ico_encode im fp format sizes rest).
Proof.
  intros Hne w. rewrite Image_save_run. cbn [prepend world].
  destruct (OS.open_wb fp (fs w)) as [e|fs1] eqn:Hopen; [done|].
  destruct (ico_encode im sizes rest) as [ico|]; cbn [world fs set_fs].
  - by rewrite lookup_insert_ne.
  - destruct (OS.exists_ fp (fs w)); [|done]. cbn [fs set_fs].
    unfold OS.open_wb in Hopen.
    destruct (fs w !! fp) as [[|d]|]; [done|..];
      destruct (fs w !! Path.parent fp) as [[|d']|]; try done;
      injection Hopen as <-; by rewrite lookup_insert_ne.
Qed.

Lemma preserves_create_ico (q : path) (arg : list (string * Z)) :
  q ≠ ICO → preserves q (create_ico' arg).
Proof.
  intros Hne. unfold create_ico. apply preserves_bind; [apply preserves_emit|].
  intros _. apply preserves_bind; [apply preserves_load_images|].
  intros [|im0 rest]; [apply preserves_emit|].
  apply preserves_bind; [by apply preserves_Image_save|].
  intros _. apply preserves_emit.
Qed.

Lemma preserves_main (q : path) : ¬ is_output script_file q → preserves q main'.
Proof.
  intros Hq. unfold main.
  apply preserves_bind; [apply preserves_bind; [apply preserves_emit|]|].
  { by intros _ w. }
  intros b. apply preserves_bind.
  { destruct (negb b); [|apply preserves_ret].
    apply preserves_bind; [apply preserves_emit|]. by intros _ w. }
  intros _. do 3 (apply preserves_bind; [apply preserves_emit|]; intros _).
  apply preserves_bind.
  { apply preserves_for_each. intros [f size] Hin.
    apply preserves_svg_to_png. intros ->. apply Hq. right. by exists f, size. }
  intros _. apply preserves_bind.
  { apply preserves_create_ico. intros ->. apply Hq. by left. }
  intros _. apply preserves_bind; [apply preserves_emit|].
  intros _. apply preserves_emit.
Qed.

(** However the run ends, a path that is not one of the ten outputs is
    afterwards what it was before, or is a directory on the way to the
    output directory that the module-level [mkdir] created. *)
Theorem script_frame (w : World) (q : path) :
  ¬ is_output script_file q →
  fs (world (script' w)) !! q = fs w !! q ∨
  (fs w !! q = None ∧ fs (world (script' w)) !! q = Some Dir ∧
   q `prefix_of` DIR).
Proof.
  intros Hq. rewrite script_run.
  destruct (bool_decide ("cairosvg" ∈ modules w)); [|by left].
  destruct (bool_decide ("PIL" ∈ modules w)); [|by left].
  destruct (pathlib_mkdir DIR true true (fs w)) as [e|fs1] eqn:Hmk; [by left|].
  cbn [prepend world]. rewrite (preserves_main q Hq). cbn [fs set_fs].
  apply pathlib_mkdir_post in Hmk. destruct Hmk as (_ & Hsub & Hnew).
  destruct (fs w !! q) as [n|] eqn:Hw.
  - left. by eapply lookup_weaken.
  - destruct (fs1 !! q) as [n|] eqn:H1; [|by left].
    right. destruct (Hnew q n H1 Hw) as [-> Hpre]. done.
Qed.

(** The source is read and never written: whatever was at its path
    before the run is there after it, however the run ends. *)
Theorem source_untouched (w : World) :
  fs (world (script' w)) !! SVG = fs w !! SVG.
Proof.
  assert (¬ is_output script_file SVG) as Hq.
  { intros [Heq|(f & size & Hin & Heq)].
    - rewrite SVG_PATH_eq, ICO_eq in Heq. apply app_inv_head in Heq.
      discriminate Heq.
    - destruct (PNG_SIZES_output f size Hin) as [Hf _].
      by destruct (output_target_ne_SVG script_file f Hf). }
  rewrite script_run.
  destruct (bool_decide ("cairosvg" ∈ modules w)); [|done].
  destruct (bool_decide ("PIL" ∈ modules w)); [|done].
  destruct (pathlib_mkdir DIR true true (fs w)) as [e|fs1] eqn:Hmk; [done|].
  cbn [prepend world]. rewrite (preserves_main SVG Hq). cbn [fs set_fs].
  apply pathlib_mkdir_post in Hmk.
  rewrite (SVG_PATH_eq script_file). by apply mkdir_post_below.
Qed.


(** ** Directories and files in the wrong place *)

Lemma pathlib_mkdir_file (p : path) (d : list byte) (parents : bool) (fs0 : FS) :
  fs0 !! p = Some (File d) →
  pathlib_mkdir p parents true fs0 = inl FileExistsError.
Proof.
  intros Hp. unfold pathlib_mkdir.
  assert (OS.mkdir (rev (rev p)) fs0 = inl FileExistsError) as Hmk
    by (rewrite rev_involutive; unfold OS.mkdir; by rewrite Hp).
  assert (mkdir_handle (rev (rev p)) true FileExistsError fs0
            = inl FileExistsError) as Hh
    by (rewrite rev_involutive; unfold mkdir_handle, OS.is_dir; by rewrite Hp).
  destruct (rev p) as [|x rp]; cbn [mkdir_rev]; by rewrite Hmk.
Qed.

(** When a regular file sits where the output directory should be, the
    [mkdir] of the module body raises [FileExistsError] ([exist_ok] only
    forgives a directory): the run ends with status 1 before [main] is
    called, with nothing printed and nothing changed. *)
Theorem output_dir_is_file (w : World) (d : list byte) :
  "cairosvg" ∈ modules w →
  "PIL" ∈ modules w →
  fs w !! DIR = Some (File d) →
  script' w =
    Result (Raise FileExistsError) w
      [EvImport "cairosvg"; EvImport "PIL"; EvMkdir DIR] ∧
  exit_code (res (script' w)) = 1%Z ∧
  stdout (log (script' w)) = [].
Proof.
  intros Hc Hp Hdir.
  assert (script' w =
            Result (Raise FileExistsError) w
              [EvImport "cairosvg"; EvImport "PIL"; EvMkdir DIR]) as Hrun.
  { rewrite script_run, (bool_decide_eq_true_2 _ Hc),
      (bool_decide_eq_true_2 _ Hp), (pathlib_mkdir_file _ d _ _ Hdir).
    reflexivity. }
  rewrite Hrun. by repeat split.
Qed.


(** ** A candidate Pillow cannot open *)

(** When one of the candidates that exist is a directory or not an image
    Pillow identifies, [create_ico] ends with the exception of the first
    such candidate: nothing is saved and the file system stays as it
    was. *)
Theorem broken_candidate (arg : list (string * Z)) (w : World) (size : Z)
    (n : node) :
  size ∈ [16; 32; 48]%Z →
  fs w !! ico_png_path script_file size = Some n →
  (n = Dir ∨ ∃ d, n = File d ∧ pil_identify d = false) →
  (res (create_ico' arg w) = Raise IsADirectoryError ∨
   res (create_ico' arg w) = Raise UnidentifiedImageError) ∧
  world (create_ico' arg w) = w ∧
  List.filter is_save (log (create_ico' arg w)) = [] ∧
  stdout (log (create_ico' arg w)) = ["Generating favicon.ico..."].
Proof.
  intros Hin Hn Hbad. rewrite create_ico_run, bind_run.
  destruct (load_images_frame pil_identify script_file [16; 32; 48]%Z [] w)
    as [Hw Hprobes].
  destruct (probes_no_save _ Hprobes) as [Hns Hno].
  destruct (res (load_images' [16; 32; 48]%Z [] w)) as [imgs|c|e] eqn:Hload.
  - exfalso. pose proof (load_images_inv _ _ _ _ _ _ Hload) as Hl.
    unfold loadable in Hl. rewrite Forall_forall in Hl.
    destruct (Hl size Hin n Hn) as (d & -> & Hid).
    destruct Hbad as [Hbad|(d' & [= <-] & Hbad)]; [done|congruence].
  - by destruct (load_images_no_exit pil_identify script_file _ _ _ _ Hload).
  - cbn [prepend res world log]. rewrite Hw.
    cbn [List.filter is_save app stdout omap list_omap]. fold (stdout (log (load_images' [16; 32; 48]%Z [] w))).
    rewrite Hns, Hno. split; [|done].
    revert Hload. clear. generalize (@nil Image).
    generalize [16; 32; 48]%Z. intros sizes.
    induction sizes as [|s sizes IH]; intros images; [done|].
    cbn [load_images]. rewrite bind_run, Path_exists_run. cbn [res world log].
    unfold OS.exists_.
    destruct (fs w !! ico_png_path script_file s) as [[|d]|] eqn:Hs;
      [| |cbn [prepend res]; apply IH].
    + rewrite bind_run, Image_open_run. unfold OS.read. rewrite Hs.
      cbn [prepend res]. intros [= <-]. by left.
    + rewrite bind_run, Image_open_run. unfold OS.read. rewrite Hs.
      destruct (pil_identify d); cbn [res world prepend];
        [apply IH|intros [= <-]; by right].
Qed.

End Robustness.

(** * Beyond the specification: full runs and late failures *)

Section Outcomes.

Variable svg2png_render : list byte → Z → Z → option (list byte).
Variable pil_identify : list byte → bool.
Variable ico_encode : Image → list (Z * Z) → list Image → option (list byte).
Variable script_file : path.

Local Abbreviation SVG := (SVG_PATH script_file).
Local Abbreviation DIR := (FAVICON_DIR script_file).
Local Abbreviation ICO := (FAVICON_DIR script_file // "favicon.ico").
Local Abbreviation main' :=
  (main svg2png_render pil_identify ico_encode script_file).
Local Abbreviation script' :=
  (script svg2png_render pil_identify ico_encode script_file).
Local Abbreviation create_ico' :=
  (create_ico pil_identify ico_encode script_file).

Lemma ico_source_16 (svg : list byte) :
  ico_source svg2png_render script_file svg 16 =
    mkImage (DIR ++ ["favicon-16x16.png"]) (rendered svg2png_render svg 16).
Proof. unfold ico_source. by rewrite (ico_png_path_16 script_file). Qed.

Lemma ico_source_32 (svg : list byte) :
  ico_source svg2png_render script_file svg 32 =
    mkImage (DIR ++ ["favicon-32x32.png"]) (rendered svg2png_render svg 32).
Proof. unfold ico_source. by rewrite (ico_png_path_32 script_file). Qed.

Lemma ico_source_48 (svg : list byte) :
  ico_source svg2png_render script_file svg 48 =
    mkImage (DIR ++ ["favicon-48x48.png"]) (rendered svg2png_render svg 48).
Proof. unfold ico_source. by rewrite (ico_png_path_48 script_file). Qed.

Lemma success_log_saves (svg : list byte) :
  List.filter is_save (success_log svg2png_render script_file svg) =
    [EvSave (ico_source svg2png_render script_file svg 16) ICO "ICO" ico_sizes
       [ico_source svg2png_render script_file svg 32;
        ico_source svg2png_render script_file svg 48]].
Proof.
  unfold success_log. rewrite !List.filter_app, png_events_no_save.
  reflexivity.
Qed.

(** On a run that gets to the end, [favicon.ico] is encoded from the
    three PNGs this run rendered for 16, 32 and 48 pixels, in this order,
    whatever PNGs or ICO were in the output directory before; there is
    exactly one [save]. *)
Theorem ico_from_fresh_pngs (w : World) :
  res (script' w) = Ret tt →
  ∃ svg png16 png32 png48 ico,
    fs w !! SVG = Some (File svg) ∧
    svg2png_render svg 16 16 = Some png16 ∧
    svg2png_render svg 32 32 = Some png32 ∧
    svg2png_render svg 48 48 = Some png48 ∧
    ico_encode (mkImage (DIR ++ ["favicon-16x16.png"]) png16)
      [(16, 16); (32, 32); (48, 48)]%Z
      [mkImage (DIR ++ ["favicon-32x32.png"]) png32;
       mkImage (DIR ++ ["favicon-48x48.png"]) png48] = Some ico ∧
    fs (world (script' w)) !! (DIR ++ ["favicon.ico"]) = Some (File ico) ∧
    List.filter is_save (log (script' w)) =
      [EvSave (mkImage (DIR ++ ["favicon-16x16.png"]) png16)
         (DIR ++ ["favicon.ico"]) "ICO" [(16, 16); (32, 32); (48, 48)]%Z
         [mkImage (DIR ++ ["favicon-32x32.png"]) png32;
          mkImage (DIR ++ ["favicon-48x48.png"]) png48]].
Proof.
  intros Hres.
  destruct (script_success _ _ _ _ w Hres) as (fs1 & svg & ico & Hcond & Hrun).
  destruct Hcond as (_ & _ & Hmk & Hready & _ & Henc & _).
  exists svg, (rendered svg2png_render svg 16), (rendered svg2png_render svg 32),
    (rendered svg2png_render svg 48), ico.
  rewrite Hrun. cbn [world log fs set_fs].
  rewrite success_log_saves, <- (ICO_eq script_file).
  rewrite <- ico_source_16, <- ico_source_32, <- ico_source_48.
  split.
  { apply pathlib_mkdir_post in Hmk. destruct Hready as (Hsvg & _).
    rewrite (SVG_PATH_eq script_file), <- (mkdir_post_below _ _ _ _ Hmk).
    by rewrite <- (SVG_PATH_eq script_file). }
  split; [apply (raster_ready_rendered _ _ _ _ _ "favicon-16x16.png" _ Hready);
          vm_decide|].
  split; [apply (raster_ready_rendered _ _ _ _ _ "favicon-32x32.png" _ Hready);
          vm_decide|].
  split; [apply (raster_ready_rendered _ _ _ _ _ "favicon-48x48.png" _ Hready);
          vm_decide|].
  split; [exact Henc|]. split; [|reflexivity].
  unfold success_fs. by rewrite lookup_insert_eq.
Qed.

(** The script calls [sys.exit] in two places only, both with status 1:
    a run ends that way exactly when a library is missing or, with both
    there and the [mkdir] through, the source does not exist; and then
    neither the rasterizer nor Pillow has been called. *)
Theorem exits_only_with_one (w : World) (c : Z) :
  res (script' w) = Exit c →
  c = 1%Z ∧
  (¬ ("cairosvg" ∈ modules w ∧ "PIL" ∈ modules w) ∨ fs w !! SVG = None) ∧
  Forall (λ e, is_svg2png e = false ∧ is_open e = false ∧ is_save e = false)
    (log (script' w)).
Proof.
  rewrite script_run.
  destruct (bool_decide_reflect ("cairosvg" ∈ modules w)) as [Hc|Hc].
  2: { intros [= <-]. split; [done|]. split; [left; by intros [? ?]|].
       cbn [log]. by repeat constructor. }
  destruct (bool_decide_reflect ("PIL" ∈ modules w)) as [Hp|Hp].
  2: { intros [= <-]. split; [done|]. split; [left; by intros [? ?]|].
       cbn [log]. by repeat constructor. }
  destruct (pathlib_mkdir DIR true true (fs w)) as [e|fs1] eqn:Hmk; [done|].
  rewrite main_run. cbn [prepend res log]. unfold OS.exists_. rewrite fs_set_fs.
  destruct (fs1 !! SVG) as [n|] eqn:Hsvg.
  - cbn [prepend res]. intros Hexit. exfalso. revert Hexit.
    apply bind_no_exit; [apply png_loop_no_exit|].
    intros _ w' c'. apply bind_no_exit; [intros; apply create_ico_no_exit|].
    intros _ w'' c''. by apply bind_no_exit.
  - intros [= <-]. split; [done|]. split.
    + right. apply pathlib_mkdir_post in Hmk.
      rewrite (SVG_PATH_eq script_file), <- (mkdir_post_below _ _ _ _ Hmk).
      by rewrite <- (SVG_PATH_eq script_file).
    + cbn [app log]. by repeat constructor.
Qed.



End Outcomes.

(** * Beyond the specification: the output directory *)

Section OutputDirectory.

Variable svg2png_render : list byte → Z → Z → option (list byte).
Variable pil_identify : list byte → bool.
Variable ico_encode : Image → list (Z * Z) → list Image → option (list byte).
Variable script_file : path.

Local Abbreviation SVG := (SVG_PATH script_file).
Local Abbreviation DIR := (FAVICON_DIR script_file).
Local Abbreviation main' :=
  (main svg2png_render pil_identify ico_encode script_file).
Local Abbreviation script' :=
  (script svg2png_render pil_identify ico_encode script_file).

Lemma mkdir_rev_succeeds (rp : path) (parents : bool) (fs0 : FS) :
  fs0 !! [] = Some Dir →
  (∀ (q : path) (d : list byte),
     q `prefix_of` rev rp → fs0 !! q ≠ Some (File d)) →
  ∃ fs1, mkdir_rev rp true true fs0 = inr fs1.
Proof.
  induction rp as [|x rparent IH]; intros Hroot Hfree.
  - cbn [mkdir_rev rev]. unfold OS.mkdir. rewrite Hroot.
    unfold mkdir_handle, OS.is_dir. rewrite Hroot. by eexists.
  - cbn [mkdir_rev rev]. unfold OS.mkdir at 1. rewrite parent_snoc.
    destruct (fs0 !! (rev rparent ++ [x])) as [[|d]|] eqn:Hp.
    + unfold mkdir_handle, OS.is_dir. rewrite Hp. by eexists.
    + by destruct (Hfree (rev rparent ++ [x]) d).
    + destruct (fs0 !! rev rparent) as [[|d]|] eqn:Hparent.
      * by eexists.
      * destruct (Hfree (rev rparent) d); [by apply prefix_app_r|done].
      * destruct IH as [fs1 Hrec]; [done| |].
        { intros q d Hq. apply Hfree. cbn [rev]. by apply prefix_app_r. }
        rewrite Hrec. apply mkdir_rev_post in Hrec.
        unfold mkdir_noparents, OS.mkdir. rewrite parent_snoc.
        rewrite (mkdir_post_below _ _ _ _ Hrec), Hp.
        destruct Hrec as (-> & _). by eexists.
Qed.

(** With nothing but directories on the way ([parents=True]) and no
    regular file in the way, the [mkdir] of the module body goes through,
    whether the output directory and its ancestors are there or not: the
    directory is there afterwards, what was on the disk is unchanged, and
    the run goes on to [main]. *)
Theorem output_dir_ensured (w : World) :
  "cairosvg" ∈ modules w →
  "PIL" ∈ modules w →
  fs w !! [] = Some Dir →
  (∀ (q : path) (d : list byte),
     q `prefix_of` DIR → fs w !! q ≠ Some (File d)) →
  ∃ fs1,
    pathlib_mkdir DIR true true (fs w) = inr fs1 ∧
    fs1 !! DIR = Some Dir ∧
    fs w ⊆ fs1 ∧
    (∀ (q : path) (n : node),
       fs1 !! q = Some n → fs w !! q = None → n = Dir ∧ q `prefix_of` DIR) ∧
    script' w =
      prepend [EvImport "cairosvg"; EvImport "PIL"; EvMkdir DIR]
        (main' (set_fs w fs1)).
Proof.
  intros Hc Hp Hroot Hfree.
  destruct (mkdir_rev_succeeds (rev DIR) true (fs w) Hroot) as [fs1 Hmk].
  { intros q d. rewrite rev_involutive. apply Hfree. }
  exists fs1. split; [exact Hmk|].
  destruct (pathlib_mkdir_post DIR true true (fs w) fs1 Hmk)
    as (Hdir & Hsub & Hnew).
  split; [done|]. split; [done|]. split; [done|].
  rewrite script_run, (bool_decide_eq_true_2 _ Hc),
    (bool_decide_eq_true_2 _ Hp).
  unfold pathlib_mkdir in Hmk |- *. by rewrite Hmk.
Qed.

Lemma script_after_loop (w : World) (fs1 : FS) (svg : list byte) :
  "cairosvg" ∈ modules w →
  "PIL" ∈ modules w →
  pathlib_mkdir DIR true true (fs w) = inr fs1 →
  raster_ready svg2png_render script_file svg PNG_SIZES fs1 →
  script' w =
    prepend
      ([EvImport "cairosvg"; EvImport "PIL"; EvMkdir DIR; EvExists SVG;
        EvPrint ("Using SVG source: " +:+ Path.str SVG);
        EvPrint ("Output directory: " +:+ Path.str DIR);
        EvPrint ""] ++ flat_map (png_events script_file) PNG_SIZES)
      (bind (create_ico pil_identify ico_encode script_file PNG_SIZES)
         (λ _, bind (print (nl +:+ "âœ… Favicon generation complete!"))
                 (λ _, print ("Files created in: " +:+ Path.str DIR)))
         (set_fs w (written svg2png_render script_file svg PNG_SIZES fs1))).
Proof.
  intros Hc Hp Hmk Hready.
  pose proof Hready as (Hsvg & _).
  rewrite script_run, (bool_decide_eq_true_2 _ Hc),
    (bool_decide_eq_true_2 _ Hp), Hmk, main_run.
  unfold OS.exists_. rewrite fs_set_fs, Hsvg.
  rewrite bind_run.
  rewrite (png_loop_ok svg2png_render script_file svg PNG_SIZES (set_fs w fs1)
             (PNG_SIZES_names) Hready).
  cbn [res world log]. rewrite fs_set_fs, set_fs_set_fs.
  by rewrite !prepend_prepend.
Qed.

Lemma create_ico_no_svg2png (arg : list (string * Z)) (w : World) :
  List.filter is_svg2png
    (log (create_ico pil_identify ico_encode script_file arg w)) = [].
Proof.
  rewrite create_ico_run, bind_run.
  destruct (load_images_frame pil_identify script_file [16; 32; 48]%Z [] w)
    as [Hw Hprobes].
  assert (List.filter is_svg2png
            (log (load_images pil_identify script_file [16; 32; 48]%Z [] w))
            = []) as Hl.
  { induction Hprobes as [|e l He _ IH]; [done|].
    destruct e; try done; exact IH. }
  destruct (res (load_images pil_identify script_file [16; 32; 48]%Z [] w))
    as [[|im0 rest]|c|e]; cbn [prepend log List.filter is_svg2png app];
    rewrite ?List.filter_app, Hl; try done.
  rewrite bind_run, Image_save_run. cbn [prepend res world log].
  destruct (OS.open_wb _ _) as [e|fs3]; [done|].
  by destruct (ico_encode im0 ico_sizes rest).
Qed.

(** A failure after the loop, in the ICO assembly, comes too late for
    the PNGs: when the rasterization goes through and the run still does
    not get to the end, it ends with an exception, all nine rasterizer
    calls have been made, and every PNG of the table is on the disk. *)
Theorem late_failure_keeps_pngs (w : World) (fs1 : FS) (svg : list byte) :
  "cairosvg" ∈ modules w →
  "PIL" ∈ modules w →
  pathlib_mkdir DIR true true (fs w) = inr fs1 →
  raster_ready svg2png_render script_file svg PNG_SIZES fs1 →
  res (script' w) ≠ Ret tt →
  (∃ e, res (script' w) = Raise e) ∧
  (∀ (f : string) (size : Z), (f, size) ∈ PNG_SIZES →
     fs (world (script' w)) !! (DIR ++ [f]) =
       Some (File (rendered svg2png_render svg size))) ∧
  List.filter is_svg2png (log (script' w)) =
    map (λ entry, EvSvg2Png SVG (DIR ++ [entry.1]) entry.2 entry.2) PNG_SIZES.
Proof.
  intros Hc Hp Hmk Hready.
  rewrite (script_after_loop w fs1 svg Hc Hp Hmk Hready), bind_run.
  pose proof (create_ico_no_exit pil_identify ico_encode script_file PNG_SIZES
                (set_fs w (written svg2png_render script_file svg
                             PNG_SIZES fs1))) as Hnoexit.
  pose proof (create_ico_no_svg2png PNG_SIZES
                (set_fs w (written svg2png_render script_file svg
                             PNG_SIZES fs1))) as Hnocall.
  assert (∀ (f : string) (size : Z), (f, size) ∈ PNG_SIZES →
            fs (world (create_ico pil_identify ico_encode script_file PNG_SIZES
                         (set_fs w (written svg2png_render script_file svg
                                      PNG_SIZES fs1)))) !! (DIR ++ [f]) =
              Some (File (rendered svg2png_render svg size))) as Hkept.
  { intros f size Hin.
    destruct (PNG_SIZES_output f size Hin) as [Hf Hne].
    rewrite (preserves_create_ico pil_identify ico_encode script_file
               (DIR ++ [f]) PNG_SIZES).
    - rewrite fs_set_fs. by apply written_PNG.
    - rewrite (ICO_eq script_file). by apply snoc_inj_ne. }
  destruct (create_ico pil_identify ico_encode script_file PNG_SIZES
              (set_fs w (written svg2png_render script_file svg PNG_SIZES fs1)))
    as [r w3 l3].
  cbn [res world log] in Hnoexit, Hnocall, Hkept.
  destruct r as [[]|c|e]; cbn [prepend res world log]; intros Hfail.
  - by destruct Hfail.
  - by destruct (Hnoexit c).
  - split; [by exists e|]. split; [exact Hkept|].
    rewrite List.filter_app, Hnocall, app_nil_r.
    cbn [app List.filter is_svg2png].
    apply flat_map_png_events_calls, PNG_SIZES_names.
Qed.

End OutputDirectory.

(** ** The further properties on the concrete installation *)

(** [script_frame]: the checkout directory, on the bare checkout. *)
Lemma script_frame_witness :
  ¬ is_output Example.script_file ["repo"] ∧
  (fs (world (Example.run 512 Example.bare)) !! ["repo"]
     = fs Example.bare !! ["repo"] ∨
   (fs Example.bare !! ["repo"] = None ∧
    fs (world (Example.run 512 Example.bare)) !! ["repo"] = Some Dir ∧
    ["repo"] `prefix_of` FAVICON_DIR Example.script_file)).
Proof.
  assert (¬ is_output Example.script_file ["repo"]) as Hq.
  { intros [Heq|(f & size & Hin & Heq)].
    - vm_compute in Heq. discriminate Heq.
    - destruct (PNG_SIZES_output f size Hin) as [Hf _].
      rewrite (output_target Example.script_file f Hf) in Heq.
      apply (f_equal length) in Heq. rewrite length_app in Heq.
      vm_compute in Heq. discriminate Heq. }
  split; [exact Hq|].
  exact (script_frame (Example.render 512) Example.identify Example.encode
           Example.script_file Example.bare ["repo"] Hq).
Defined.

(** [output_dir_is_file]: a file named [favicons]. *)
Lemma output_dir_is_file_witness :
  fs Example.blocked !! FAVICON_DIR Example.script_file = Some (File [x00]) ∧
  res (Example.run 512 Example.blocked) = Raise FileExistsError ∧
  stdout (log (Example.run 512 Example.blocked)) = [].
Proof.
  assert (fs Example.blocked !! FAVICON_DIR Example.script_file
            = Some (File [x00])) as Hdir by (vm_compute; reflexivity).
  assert ("cairosvg" ∈ modules Example.blocked) as Hc by vm_decide.
  assert ("PIL" ∈ modules Example.blocked) as Hp by vm_decide.
  destruct (output_dir_is_file (Example.render 512) Example.identify
              Example.encode Example.script_file Example.blocked [x00]
              Hc Hp Hdir) as (Hrun & _ & Hout).
  split; [exact Hdir|]. split; [exact (f_equal res Hrun)|exact Hout].
Defined.


(** [broken_candidate]: an empty 32 pixel PNG. *)
Lemma broken_candidate_witness :
  32%Z ∈ [16; 32; 48]%Z ∧
  fs Example.broken !! ico_png_path Example.script_file 32 = Some (File []) ∧
  Example.identify [] = false ∧
  world (create_ico Example.identify Example.encode Example.script_file
           PNG_SIZES Example.broken) = Example.broken ∧
  List.filter is_save
    (log (create_ico Example.identify Example.encode Example.script_file
            PNG_SIZES Example.broken)) = [].
Proof.
  assert (32%Z ∈ [16; 32; 48]%Z) as Hin by (right; left).
  assert (fs Example.broken !! ico_png_path Example.script_file 32
            = Some (File [])) as Hn by (vm_compute; reflexivity).
  assert (Example.identify [] = false) as Hid by reflexivity.
  destruct (broken_candidate Example.identify Example.encode
              Example.script_file PNG_SIZES Example.broken 32 (File [])
              Hin Hn (or_intror (ex_intro _ [] (conj eq_refl Hid))))
    as (_ & Hworld & Hsave & _).
  split; [exact Hin|]. split; [exact Hn|]. split; [exact Hid|].
  split; [exact Hworld|exact Hsave].
Defined.

(** [ico_from_fresh_pngs]: over the leftovers of an older run. *)
Lemma ico_from_fresh_pngs_witness :
  res (Example.run 512 Example.stale) = Ret tt ∧
  ∃ ico,
    fs (world (Example.run 512 Example.stale))
      !! (FAVICON_DIR Example.script_file ++ ["favicon.ico"]) = Some (File ico) ∧
    fs Example.stale
      !! (FAVICON_DIR Example.script_file ++ ["favicon.ico"])
      = Some (File [x00; x00]).
Proof.
  assert (res (Example.run 512 Example.stale) = Ret tt) as Hres
    by (vm_compute; reflexivity).
  destruct (ico_from_fresh_pngs (Example.render 512) Example.identify
              Example.encode Example.script_file Example.stale Hres)
    as (svg & p16 & p32 & p48 & ico & _ & _ & _ & _ & _ & Hico & _).
  split; [exact Hres|]. exists ico. split; [exact Hico|].
  vm_compute. reflexivity.
Defined.

(** [exits_only_with_one]: the bare checkout. *)
Lemma exits_only_with_one_witness :
  res (Example.run 512 Example.bare) = Exit 1 ∧
  (¬ ("cairosvg" ∈ modules Example.bare ∧ "PIL" ∈ modules Example.bare) ∨
   fs Example.bare !! SVG_PATH Example.script_file = None).
Proof.
  assert (res (Example.run 512 Example.bare) = Exit 1) as Hres
    by (vm_compute; reflexivity).
  split; [exact Hres|].
  exact (proj1 (proj2 (exits_only_with_one (Example.render 512)
                         Example.identify Example.encode Example.script_file
                         Example.bare 1%Z Hres))).
Defined.


(** [output_dir_ensured]: four directories are missing on the bare
    checkout. *)
Lemma output_dir_ensured_witness :
  fs Example.bare !! [] = Some Dir ∧
  (∀ (q : path) (d : list byte),
     q `prefix_of` FAVICON_DIR Example.script_file →
     fs Example.bare !! q ≠ Some (File d)) ∧
  ∃ fs1,
    pathlib_mkdir (FAVICON_DIR Example.script_file) true true
      (fs Example.bare) = inr fs1 ∧
    fs1 !! FAVICON_DIR Example.script_file = Some Dir.
Proof.
  assert (fs Example.bare !! [] = Some Dir) as Hroot
    by (vm_compute; reflexivity).
  assert (∀ (q : path) (d : list byte),
            q `prefix_of` FAVICON_DIR Example.script_file →
            fs Example.bare !! q ≠ Some (File d)) as Hfree.
  { intros q d _ Hq.
    assert (map_Forall (λ _ n, n = Dir) (fs Example.bare)) as Hall.
    { unfold Example.bare, Example.bare_fs. cbn [fs].
      repeat (apply map_Forall_insert_2; [reflexivity|]).
      apply map_Forall_empty. }
    specialize (Hall q _ Hq). discriminate Hall. }
  assert ("cairosvg" ∈ modules Example.bare) as Hc by vm_decide.
  assert ("PIL" ∈ modules Example.bare) as Hp by vm_decide.
  destruct (output_dir_ensured (Example.render 512) Example.identify
              Example.encode Example.script_file Example.bare
              Hc Hp Hroot Hfree) as (fs1 & Hmk & Hdir & _).
  split; [exact Hroot|]. split; [exact Hfree|]. by exists fs1.
Defined.

(** [late_failure_keeps_pngs]: a directory named [favicon.ico]. *)
Lemma late_failure_keeps_pngs_witness :
  res (Example.run 512 Example.ico_is_dir) ≠ Ret tt ∧
  (∃ e, res (Example.run 512 Example.ico_is_dir) = Raise e) ∧
  fs (world (Example.run 512 Example.ico_is_dir))
    !! (FAVICON_DIR Example.script_file ++ ["android-chrome-512x512.png"]) =
    Some (File (rendered (Example.render 512) Example.svg_bytes 512)).
Proof.
  assert (res (Example.run 512 Example.ico_is_dir) ≠ Ret tt) as Hfail
    by (vm_compute; intros H; discriminate H).
  assert ("cairosvg" ∈ modules Example.ico_is_dir) as Hc by vm_decide.
  assert ("PIL" ∈ modules Example.ico_is_dir) as Hp by vm_decide.
  assert (pathlib_mkdir (FAVICON_DIR Example.script_file) true true
            (fs Example.ico_is_dir) = inr (fs Example.ico_is_dir)) as Hmk
    by (apply pathlib_mkdir_exists; vm_compute; reflexivity).
  assert (raster_ready (Example.render 512) Example.script_file
            Example.svg_bytes PNG_SIZES (fs Example.ico_is_dir)) as Hready.
  { split; [vm_compute; reflexivity|]. split; [vm_compute; reflexivity|].
    unfold PNG_SIZES.
    repeat (apply Forall_cons;
              split; [split; [eexists; reflexivity
                             |vm_compute; intros H; discriminate H]|]).
    constructor. }
  destruct (late_failure_keeps_pngs (Example.render 512) Example.identify
              Example.encode Example.script_file Example.ico_is_dir
              (fs Example.ico_is_dir) Example.svg_bytes Hc Hp Hmk Hready Hfail)
    as (Hraise & Hkept & _).
  split; [exact Hfail|]. split; [exact Hraise|].
  apply (Hkept "android-chrome-512x512.png" 512%Z). vm_decide.
Defined.
